(** * SplitPane: a shallow embedding of [src/components/SplitPane.tsx]

    The component is a React function component.  Its pure helpers
    ([isPercentage], [validateSize], [convertPixelToPercentage],
    [getPercentage], ...) become Rocq functions; the props validation that
    throws becomes a function into a sum type; the event handlers become
    state transformers over the component state ([leftPaneSize]) and the
    [window] listener registry; the DOM is an input: every handler receives
    the current contents of the two refs.  The props of an instance stay
    the same while it is mounted, so the callbacks memoized by
    [useCallback] keep their identity from one render to the next.

    Numbers.  A JavaScript [number] is modelled as a rational, plus [NaN]
    and the two infinities.  The rounding of binary64, overflow, underflow
    and the sign of zero are not modelled, and [parseFloat] and [Number]
    read a decimal text as the rational it denotes.  The general theorems
    are therefore stated about which expression the code evaluates and how
    its results are ordered, which rounding to nearest preserves.  None of
    them rests on a percentage giving its pixels back, or pixels their
    percentage, which rounding breaks; module [Double] repeats the
    arithmetic of the conversion on binary64 numbers and section
    [Rounding] shows two such cases.  The inputs of the counterexamples
    are chosen so that the values which the code computes on them in
    binary64 are the ones computed here.

    Strings.  A JavaScript string is either a literal text or a template
    literal that interpolates one number in front of a fixed suffix
    ([`${n}%`], [`${n}px`]).  The decimal text of a number is kept symbolic;
    what is used about it is that it is non-empty, contains neither white
    space nor ['%'], and that [parseFloat] and [Number] read the number back
    from it. *)

From Stdlib Require Import ZArith QArith Qcanon Lqa Lia Bool List.
From Stdlib Require Import Ascii String.
From Stdlib Require Floats.
Import ListNotations.

(** ** JavaScript numbers and strings *)

Module Js.

Local Open Scope Qc_scope.

(** A finite number is a rational: no rounding, no overflow to an
    infinity, no underflow to zero, one zero. *)
Inductive number : Type :=
  | NaN
  | PInf
  | NInf
  | Fin (q : Qc).

Definition int (z : Z) : number := Fin (Q2Qc (inject_Z z)).
Definition frac (n : Z) (d : positive) : number := Fin (Q2Qc (n # d)).

Definition Qcltb (a b : Qc) : bool :=
  match (this a ?= this b)%Q with Lt => true | _ => false end.

Definition sign (a : Qc) : comparison := (this a ?= 0)%Q.

Definition isNaN (a : number) : bool :=
  match a with NaN => true | _ => false end.

Definition neg (a : number) : number :=
  match a with
  | NaN => NaN
  | PInf => NInf
  | NInf => PInf
  | Fin q => Fin (- q)
  end.

Definition add (a b : number) : number :=
  match a, b with
  | NaN, _ | _, NaN => NaN
  | PInf, NInf | NInf, PInf => NaN
  | PInf, _ | _, PInf => PInf
  | NInf, _ | _, NInf => NInf
  | Fin x, Fin y => Fin (x + y)
  end.

Definition sub (a b : number) : number := add a (neg b).

(** The sign of an infinity multiplied by a finite factor; [0 * Infinity]
    is [NaN]. *)
Definition scale_inf (positive_inf : bool) (q : Qc) : number :=
  match sign q with
  | Eq => NaN
  | Gt => if positive_inf then PInf else NInf
  | Lt => if positive_inf then NInf else PInf
  end.

Definition mul (a b : number) : number :=
  match a, b with
  | NaN, _ | _, NaN => NaN
  | Fin x, Fin y => Fin (x * y)
  | Fin x, PInf | PInf, Fin x => scale_inf true x
  | Fin x, NInf | NInf, Fin x => scale_inf false x
  | PInf, PInf | NInf, NInf => PInf
  | PInf, NInf | NInf, PInf => NInf
  end.

(** Division; a zero divisor counts as [+0]. *)
Definition div (a b : number) : number :=
  match a, b with
  | NaN, _ | _, NaN => NaN
  | Fin x, Fin y =>
      match sign y with
      | Eq => match sign x with Eq => NaN | Gt => PInf | Lt => NInf end
      | _ => Fin (x / y)
      end
  | Fin _, _ => Fin 0
  | PInf, Fin y => match sign y with Lt => NInf | _ => PInf end
  | NInf, Fin y => match sign y with Lt => PInf | _ => NInf end
  | _, _ => NaN
  end.

(** [a < b]; false as soon as one side is [NaN]. *)
Definition lt (a b : number) : bool :=
  match a, b with
  | NaN, _ | _, NaN => false
  | Fin x, Fin y => Qcltb x y
  | NInf, NInf | PInf, _ => false
  | NInf, _ => true
  | Fin _, PInf => true
  | Fin _, NInf => false
  end.

Definition gt (a b : number) : bool := lt b a.

(** [a <= b]. *)
Definition le (a b : number) : bool :=
  match a, b with
  | NaN, _ | _, NaN => false
  | Fin x, Fin y => negb (Qcltb y x)
  | NInf, _ | _, PInf => true
  | _, _ => false
  end.

(** [Math.max] and [Math.min] on two arguments. *)
Definition max (a b : number) : number :=
  match a, b with
  | NaN, _ | _, NaN => NaN
  | _, _ => if lt a b then b else a
  end.

Definition min (a b : number) : number :=
  match a, b with
  | NaN, _ | _, NaN => NaN
  | _, _ => if lt b a then b else a
  end.

(** *** Strings *)

Local Open Scope string_scope.

(** White space and line terminators among the code units below 256. *)
Definition isWhiteSpace (c : ascii) : bool :=
  match N_of_ascii c with
  | 9%N | 10%N | 11%N | 12%N | 13%N | 32%N | 160%N => true
  | _ => false
  end.

Fixpoint trimStart (s : string) : string :=
  match s with
  | String c r => if isWhiteSpace c then trimStart r else s
  | EmptyString => EmptyString
  end.

Fixpoint trimEnd (s : string) : string :=
  match s with
  | String c r =>
      match trimEnd r with
      | EmptyString => if isWhiteSpace c then EmptyString else String c EmptyString
      | r' => String c r'
      end
  | EmptyString => EmptyString
  end.

Definition trim_text (s : string) : string := trimEnd (trimStart s).

Fixpoint endsWith_text (s t : string) : bool :=
  if String.eqb s t then true
  else match s with
       | String _ r => endsWith_text r t
       | EmptyString => false
       end.

Fixpoint drop (n : nat) (s : string) : string :=
  match n, s with
  | S n', String _ r => drop n' r
  | _, _ => s
  end.

(** [s.replace(pat, rep)] with a string pattern: the first occurrence only. *)
Fixpoint replace_text (pat rep s : string) : string :=
  if String.prefix pat s then rep ++ drop (String.length pat) s
  else match s with
       | String c r => String c (replace_text pat rep r)
       | EmptyString => EmptyString
       end.

(** The fixed texts that the component puts after an interpolated number,
    and what is left of them once the first ['%'] is removed. *)
Inductive suffix : Type :=
  | NoSuffix
  | Percent
  | Px
  | PercentPx
  | PercentOfTheWidth
  | OfTheWidth.

Definition suffix_text (x : suffix) : string :=
  match x with
  | NoSuffix => ""
  | Percent => "%"
  | Px => "px"
  | PercentPx => "%px"
  | PercentOfTheWidth => "% of the width"
  | OfTheWidth => " of the width"
  end.

Definition suffix_without_percent (x : suffix) : suffix :=
  match x with
  | Percent => NoSuffix
  | PercentPx => Px
  | PercentOfTheWidth => OfTheWidth
  | _ => x
  end.

(** A string is a literal text or the template [`${n}`] followed by one of
    the suffixes. *)
Inductive str : Type :=
  | Lit (s : string)
  | Fmt (n : number) (x : suffix).

(** No suffix ends in white space and the text of a number has none. *)
Definition trim (s : str) : str :=
  match s with
  | Lit t => Lit (trim_text t)
  | Fmt n x => Fmt n x
  end.

(** [s.endsWith("%")]; the text of a number does not end in ['%']. *)
Definition endsWithPercent (s : str) : bool :=
  match s with
  | Lit t => endsWith_text t "%"
  | Fmt _ x => endsWith_text (suffix_text x) "%"
  end.

(** [s.replace("%", "")]; the text of a number has no ['%']. *)
Definition replacePercent (s : str) : str :=
  match s with
  | Lit t => Lit (replace_text "%" "" t)
  | Fmt n x => Fmt n (suffix_without_percent x)
  end.

(** *** Reading numbers: [parseFloat] and [Number] *)

Definition digit (c : ascii) : option Z :=
  let n := Z.of_N (N_of_ascii c) in
  if ((48 <=? n) && (n <=? 57))%Z then Some (n - 48)%Z else None.

(** Reads the longest run of decimal digits: its value on top of [acc], how
    many digits were read, and the rest. *)
Fixpoint readDigits (s : string) (acc : Z) (count : nat) : Z * nat * string :=
  match s with
  | String c r =>
      match digit c with
      | Some d => readDigits r (10 * acc + d)%Z (S count)
      | None => (acc, count, s)
      end
  | EmptyString => (acc, count, s)
  end.

(** [m * 10^e] as a number. *)
Definition scale10 (m e : Z) : number :=
  if (0 <=? e)%Z then Fin (Q2Qc (inject_Z (m * 10 ^ e)))
  else Fin (Q2Qc (m # Z.to_pos (10 ^ (- e)))).

(** An exponent part [e], [E] followed by an optional sign and at least one
    digit; absent or incomplete, it is not consumed. *)
Definition readExponent (s : string) : Z * string :=
  match s with
  | String c r =>
      if (Ascii.eqb c "e" || Ascii.eqb c "E")%bool then
        let '(negative, r1) :=
          match r with
          | String "+" r' => (false, r')
          | String "-" r' => (true, r')
          | _ => (false, r)
          end in
        let '(e, count, r2) := readDigits r1 0 0 in
        match count with
        | O => (0%Z, s)
        | _ => ((if negative then - e else e)%Z, r2)
        end
      else (0%Z, s)
  | EmptyString => (0%Z, s)
  end.

(** The longest prefix of [s] that is a [StrDecimalLiteral], with its value
    and the text after it. *)
Definition readDecimal (s : string) : option (number * string) :=
  let '(negative, s1) :=
    match s with
    | String "+" r => (false, r)
    | String "-" r => (true, r)
    | _ => (false, s)
    end in
  if String.prefix "Infinity" s1 then
    Some (if negative then NInf else PInf, drop 8 s1)
  else
    let '(ip, ic, s2) := readDigits s1 0 0 in
    let '(fp, fc, s3) :=
      match s2 with
      | String "." r => readDigits r ip 0
      | _ => (ip, O, s2)
      end in
    match ic, fc with
    | O, O => None
    | _, _ =>
        let '(e, s4) := readExponent s3 in
        let m := if negative then (- fp)%Z else fp in
        Some (scale10 m (e - Z.of_nat fc), s4)
    end.

(** [parseFloat] of a literal text.  The value is the rational that the
    decimal text denotes, not the binary64 number nearest to it: a text
    with more digits than a double holds, or with an exponent beyond its
    range, is read here as written. *)
Definition parseFloat_text (s : string) : number :=
  match readDecimal (trimStart s) with
  | Some (n, _) => n
  | None => NaN
  end.

Definition digitIn (base : Z) (c : ascii) : option Z :=
  let n := Z.of_N (N_of_ascii c) in
  let v :=
    if ((48 <=? n) && (n <=? 57))%Z then Some (n - 48)%Z
    else if ((97 <=? n) && (n <=? 102))%Z then Some (n - 87)%Z
    else if ((65 <=? n) && (n <=? 70))%Z then Some (n - 55)%Z
    else None in
  match v with
  | Some d => if (d <? base)%Z then Some d else None
  | None => None
  end.

(** A non-empty run of digits in [base] up to the end of the text. *)
Fixpoint readInteger (base : Z) (s : string) (acc : Z) : option Z :=
  match s with
  | String c r =>
      match digitIn base c with
      | Some d =>
          match r with
          | EmptyString => Some (base * acc + d)%Z
          | _ => readInteger base r (base * acc + d)%Z
          end
      | None => None
      end
  | EmptyString => None
  end.

Definition radixPrefix (s : string) : option (Z * string) :=
  match s with
  | String "0" (String c r) =>
      if (Ascii.eqb c "x" || Ascii.eqb c "X")%bool then Some (16%Z, r)
      else if (Ascii.eqb c "o" || Ascii.eqb c "O")%bool then Some (8%Z, r)
      else if (Ascii.eqb c "b" || Ascii.eqb c "B")%bool then Some (2%Z, r)
      else None
  | _ => None
  end.

(** [Number(s)] on a text: the whole trimmed text has to be a numeric
    literal; the empty text is [0]. *)
Definition Number_text (s : string) : number :=
  match trim_text s with
  | EmptyString => int 0
  | t =>
      match radixPrefix t with
      | Some (base, r) =>
          match readInteger base r 0 with
          | Some v => int v
          | None => NaN
          end
      | None =>
          match readDecimal t with
          | Some (n, EmptyString) => n
          | _ => NaN
          end
      end
  end.

(** Every suffix starts with a character that cannot continue a numeric
    literal, so [parseFloat] reads the interpolated number back. *)
Definition parseFloat (s : str) : number :=
  match s with
  | Lit t => parseFloat_text t
  | Fmt n _ => n
  end.

Definition Number_str (s : str) : number :=
  match s with
  | Lit t => Number_text t
  | Fmt n NoSuffix => n
  | Fmt _ _ => NaN
  end.

End Js.

(** ** The component *)

Import Js.
Local Open Scope string_scope.

(** [string | number], the type of [initialSize], [minSize] and of the
    state [leftPaneSize].  [Pct n] is the string [`${n}%`] that [handleMove]
    stores. *)
Inductive size : Type :=
  | Num (n : number)
  | Text (t : string)
  | Pct (n : number).

(** [`${v}`] *)
Definition toStr (v : size) : str :=
  match v with
  | Num n => Fmt n NoSuffix
  | Text t => Lit t
  | Pct n => Fmt n Percent
  end.

(** [`${v}px`] *)
Definition withPx (v : size) : str :=
  match v with
  | Num n => Fmt n Px
  | Text t => Lit (t ++ "px")
  | Pct n => Fmt n PercentPx
  end.

(** [Number(v)] *)
Definition Number (v : size) : number :=
  match v with
  | Num n => n
  | _ => Number_str (toStr v)
  end.

(** What the component reads from the DOM: the bounding rectangle of the
    container, and the bounding rectangle and [clientWidth] of the divider.
    A ref is [None] as long as its element is not mounted. *)
Record DOMRect : Type := { left : number; width : number }.

Record HTMLDivElement : Type := {
  getBoundingClientRect : DOMRect;
  clientWidth : number
}.

Record refs : Type := {
  splitPaneRef : option HTMLDivElement;
  dividerRef : option HTMLDivElement
}.

Inductive element : Type := JSX (id : nat).

(** The props; [children] is the array that React passes when the element
    has several children (see [ReactChildren] below for the other cases). *)
Record SplitPaneProps : Type := {
  children : list element;
  initialSize : option size;
  minSize : option size
}.

Definition defaultInitialSize : size := Text "50%".
Definition defaultMinSize : size := Num (int 100).

Inductive result (A : Type) : Type :=
  | Ok (a : A)
  | Throw (message : string).
Arguments Ok {A} a.
Arguments Throw {A} message.

Definition isPercentage (value : str) : bool := endsWithPercent (trim value).

Definition isString (value : size) : bool :=
  match value with
  | Num _ => false
  | _ => true
  end.

(** [isString(value) ? parseFloat(value) : value] *)
Definition numberOf (value : size) : number :=
  match value with
  | Num n => n
  | _ => parseFloat (toStr value)
  end.

Definition isNegative (value : size) : bool :=
  let number := numberOf value in
  lt number (int 0).

Definition validateSize (size : size) (label : string) : result unit :=
  if isNaN (numberOf size) then Throw (label ++ " must be a number.")
  else if isNegative size then Throw (label ++ " must be a positive number.")
  else Ok tt.

(** The props validation at the top of the component body. *)
Definition validateProps (children : list element) (initialSize minSize : size)
  : result unit :=
  if negb (Nat.eqb (List.length children) 2) then
    Throw "SplitPane must have exactly two children."
  else
    match validateSize initialSize "initialSize" with
    | Throw m => Throw m
    | Ok _ =>
        match validateSize minSize "minSize" with
        | Throw m => Throw m
        | Ok _ =>
            if isString minSize && isPercentage (toStr minSize)
               && gt (parseFloat (replacePercent (toStr minSize))) (int 50)
            then Throw "minSize must be less than or equal to 50%."
            else Ok tt
        end
    end.

(** What React hands to the component as [children]: [undefined] for an
    element without children, the child itself when there is one - an
    element or a text -, and an array when there are several.  The type
    [[JSX.Element, JSX.Element]] of the prop is checked when the caller is
    compiled, not when the component runs. *)
Inductive ReactChildren : Type :=
  | NoChildren
  | OneElement (e : element)
  | OneText (t : string)
  | ChildArray (l : list element).

(** How a call ends: with a value, with the [Error] that the component
    throws, or with the [TypeError] of reading a property of [undefined]. *)
Inductive completion (A : Type) : Type :=
  | Normal (a : A)
  | ThrowError (message : string)
  | ThrowTypeError.
Arguments Normal {A} a.
Arguments ThrowError {A} message.
Arguments ThrowTypeError {A}.

(** [children.length]: an element has no such property, a text has its
    number of characters. *)
Definition childrenLength (children : ReactChildren)
  : completion (option nat) :=
  match children with
  | NoChildren => ThrowTypeError
  | OneElement _ => Normal None
  | OneText t => Normal (Some (String.length t))
  | ChildArray l => Normal (Some (List.length l))
  end.

(** The validation of the two sizes, after the check of the children. *)
Definition validateSizes (initialSize minSize : size) : result unit :=
  match validateSize initialSize "initialSize" with
  | Throw m => Throw m
  | Ok _ =>
      match validateSize minSize "minSize" with
      | Throw m => Throw m
      | Ok _ =>
          if isString minSize && isPercentage (toStr minSize)
             && gt (parseFloat (replacePercent (toStr minSize))) (int 50)
          then Throw "minSize must be less than or equal to 50%."
          else Ok tt
      end
  end.

(** The props validation on whatever React passes as [children];
    [validateProps] is the case of an array. *)
Definition validatePropsOf (children : ReactChildren)
  (initialSize minSize : size) : completion unit :=
  match childrenLength children with
  | ThrowTypeError => ThrowTypeError
  | ThrowError m => ThrowError m
  | Normal length =>
      let isTwo := match length with
                   | Some n => Nat.eqb n 2
                   | None => false
                   end in
      if negb isTwo then
        ThrowError "SplitPane must have exactly two children."
      else
        match validateSizes initialSize minSize with
        | Throw m => ThrowError m
        | Ok _ => Normal tt
        end
  end.

(** [minPixel] of [convertPixelToPercentage]. *)
Definition minPixel (minSize : size) (totalSize : number) : number :=
  if isString minSize && isPercentage (toStr minSize)
  then mul (div (parseFloat (replacePercent (toStr minSize))) (int 100)) totalSize
  else Number minSize.

Definition convertPixelToPercentage
  (splitPaneRef : option HTMLDivElement) (minSize : size) (px : size) : number :=
  match splitPaneRef with
  | None => int 0
  | Some current =>
      let splitPaneRect := getBoundingClientRect current in
      let totalSize := width splitPaneRect in
      let px := numberOf px in
      let leftPaneSize := sub px (left splitPaneRect) in
      let minPixel := minPixel minSize totalSize in
      let leftPaneSize :=
        if lt leftPaneSize minPixel then minPixel
        else if gt leftPaneSize (sub totalSize minPixel)
             then sub totalSize minPixel
             else leftPaneSize in
      mul (div leftPaneSize totalSize) (int 100)
  end.

Definition getPercentage
  (splitPaneRef : option HTMLDivElement) (minSize : size) (value : size) : number :=
  if isString value && isPercentage (toStr value)
  then parseFloat (replacePercent (toStr value))
  else convertPixelToPercentage splitPaneRef minSize value.

(** *** State and event handlers *)

(** The functions that can sit in the [window] listener registry: the three
    callbacks of this instance and the listeners of everybody else. *)
Inductive callback : Type :=
  | Fn_handleMouseMove
  | Fn_handleTouchMove
  | Fn_removeEventListeners
  | Fn_other (id : nat).

Definition callback_eqb (a b : callback) : bool :=
  match a, b with
  | Fn_handleMouseMove, Fn_handleMouseMove => true
  | Fn_handleTouchMove, Fn_handleTouchMove => true
  | Fn_removeEventListeners, Fn_removeEventListeners => true
  | Fn_other i, Fn_other j => Nat.eqb i j
  | _, _ => false
  end.

Definition listener : Type := (string * callback)%type.

Definition listener_eqb (a b : listener) : bool :=
  String.eqb (fst a) (fst b) && callback_eqb (snd a) (snd b).

(** [window.addEventListener(type, callback)]: a listener that is already
    registered is not added again. *)
Definition addEventListener (type : string) (cb : callback) (w : list listener)
  : list listener :=
  if existsb (listener_eqb (type, cb)) w then w else w ++ [(type, cb)].

(** [window.removeEventListener(type, callback)] *)
Fixpoint removeEventListener (type : string) (cb : callback) (w : list listener)
  : list listener :=
  match w with
  | [] => []
  | l :: w' =>
      if listener_eqb (type, cb) l then w'
      else l :: removeEventListener type cb w'
  end.

(** The state of a mounted instance, with the part of the environment it
    writes: the value of [useState] and the listeners of [window]. *)
Record state : Type := {
  leftPaneSize : size;
  window : list listener
}.

Definition setLeftPaneSize (v : size) (st : state) : state :=
  {| leftPaneSize := v; window := window st |}.

Definition onWindow (f : list listener -> list listener) (st : state) : state :=
  {| leftPaneSize := leftPaneSize st; window := f (window st) |}.

Definition handleMove (dom : refs) (minSize : size) (x : number) (st : state)
  : state :=
  setLeftPaneSize
    (Pct (convertPixelToPercentage (splitPaneRef dom) minSize (Num x))) st.

Definition handleKeyDown (dom : refs) (minSize : size) (key : string)
  (st : state) : state :=
  match dividerRef dom with
  | None => st
  | Some current =>
      let dividerRect := getBoundingClientRect current in
      if String.eqb key "ArrowLeft" then
        handleMove dom minSize (sub (left dividerRect) (int 10)) st
      else if String.eqb key "ArrowRight" then
        handleMove dom minSize (add (left dividerRect) (int 10)) st
      else st
  end.

(** The event objects the listeners read: [clientX] of a mouse event, the
    [pageX] of each touch of a touch event. *)
Inductive Event : Type :=
  | MouseEvent (clientX : number)
  | TouchEvent (touches : list number).

(** [event.clientX] is [undefined] on a touch event, and [undefined - left]
    is [NaN]. *)
Definition handleMouseMove (dom : refs) (minSize : size) (event : Event)
  (st : state) : state :=
  match event with
  | MouseEvent clientX => handleMove dom minSize clientX st
  | TouchEvent _ => handleMove dom minSize NaN st
  end.

(** [event.touches[0].pageX] raises a [TypeError] when there is no first
    touch: the listener ends without an update. *)
Definition handleTouchMove (dom : refs) (minSize : size) (event : Event)
  (st : state) : state :=
  match event with
  | TouchEvent (pageX :: _) => handleMove dom minSize pageX st
  | _ => st
  end.

Definition removeEventListeners (st : state) : state :=
  onWindow (fun w =>
    removeEventListener "touchend" Fn_removeEventListeners
      (removeEventListener "touchmove" Fn_handleTouchMove
        (removeEventListener "mouseup" Fn_removeEventListeners
          (removeEventListener "mousemove" Fn_handleMouseMove w)))) st.

Definition handleMouseDown (st : state) : state :=
  onWindow (fun w =>
    addEventListener "mouseup" Fn_removeEventListeners
      (addEventListener "mousemove" Fn_handleMouseMove w)) st.

Definition handleTouchStart (st : state) : state :=
  onWindow (fun w =>
    addEventListener "touchend" Fn_removeEventListeners
      (addEventListener "touchmove" Fn_handleTouchMove w)) st.

(** Calling a registered function with an event object. *)
Definition call (dom : refs) (minSize : size) (cb : callback) (event : Event)
  (st : state) : state :=
  match cb with
  | Fn_handleMouseMove => handleMouseMove dom minSize event st
  | Fn_handleTouchMove => handleTouchMove dom minSize event st
  | Fn_removeEventListeners => removeEventListeners st
  | Fn_other _ => st
  end.

(** An event of [type] fired on [window]: the listeners registered for it
    when the event fires run in order of registration, one that has been
    removed in between is skipped. *)
Definition dispatch (dom : refs) (minSize : size) (type : string)
  (event : Event) (st : state) : state :=
  fold_left
    (fun acc l =>
       if String.eqb (fst l) type && existsb (listener_eqb l) (window acc)
       then call dom minSize (snd l) event acc
       else acc)
    (window st) st.

(** What can happen to a mounted instance: the four handlers attached to
    the divider, an event fired on [window], and the clean-up of the effect
    when the component unmounts. *)
Inductive action : Type :=
  | onMouseDown
  | onTouchStart
  | onContextMenu
  | onKeyDown (key : string)
  | onWindowEvent (type : string) (event : Event)
  | unmount.

Definition step (minSize : size) (dom : refs) (a : action) (st : state)
  : state :=
  match a with
  | onMouseDown => handleMouseDown st
  | onTouchStart => handleTouchStart st
  | onContextMenu => removeEventListeners st
  | onKeyDown key => handleKeyDown dom minSize key st
  | onWindowEvent type event => dispatch dom minSize type event st
  | unmount => removeEventListeners st
  end.

(** A run: each action comes with the DOM as it is when the action happens. *)
Fixpoint run (minSize : size) (trace : list (refs * action)) (st : state)
  : state :=
  match trace with
  | [] => st
  | (dom, a) :: rest => run minSize rest (step minSize dom a st)
  end.

(** *** Rendering *)

Record view : Type := {
  container_minWidth : option number;
  left_flexBasis : str;
  left_minWidth : str;
  left_child : option element;
  role : string;
  tabIndex : Z;
  aria_label : string;
  aria_orientation : string;
  aria_valuemin : number;
  aria_valuemax : number;
  aria_valuetext : str;
  aria_valuenow : number;
  right_minWidth : str;
  right_child : option element
}.

(** [a || b] on numbers: [0] and [NaN] are falsy. *)
Definition or_else (a : option number) (b : number) : number :=
  match a with
  | Some (Fin q) => match sign q with Eq => b | _ => Fin q end
  | Some NaN | None => b
  | Some n => n
  end.

Definition isMinSizeInPercentage (minSize : size) : bool :=
  isString minSize && isPercentage (toStr minSize).

Definition containerMinWidth (dom : refs) (minSize : size) : option number :=
  if isMinSizeInPercentage minSize then None
  else Some (add (mul (Number minSize) (int 2))
                 (or_else (option_map clientWidth (dividerRef dom)) (int 0))).

Definition flexBasis (leftPaneSize : size) : str :=
  if isString leftPaneSize && isPercentage (toStr leftPaneSize)
  then toStr leftPaneSize
  else withPx leftPaneSize.

Definition minWidth (minSize : size) : str :=
  if isMinSizeInPercentage minSize then toStr minSize else withPx minSize.

Definition ariaValueMin (dom : refs) (minSize : size) : number :=
  getPercentage (splitPaneRef dom) minSize minSize.

Definition ariaValueNow (dom : refs) (minSize leftPaneSize : size) : number :=
  getPercentage (splitPaneRef dom) minSize leftPaneSize.

(** One call of the component function: the props, the current value of
    the state and the refs as the previous commit left them. *)
Definition SplitPane (props : SplitPaneProps) (leftPaneSize : size)
  (dom : refs) : result view :=
  let children := children props in
  let initialSize :=
    match initialSize props with Some v => v | None => defaultInitialSize end in
  let minSize :=
    match minSize props with Some v => v | None => defaultMinSize end in
  match validateProps children initialSize minSize with
  | Throw m => Throw m
  | Ok _ =>
      Ok {| container_minWidth := containerMinWidth dom minSize;
            left_flexBasis := flexBasis leftPaneSize;
            left_minWidth := minWidth minSize;
            left_child := nth_error children 0;
            role := "separator";
            tabIndex := 0;
            aria_label := "Resize pane";
            aria_orientation := "horizontal";
            aria_valuemin := ariaValueMin dom minSize;
            aria_valuemax := sub (int 100) (ariaValueMin dom minSize);
            aria_valuetext :=
              Fmt (ariaValueNow dom minSize leftPaneSize) PercentOfTheWidth;
            aria_valuenow := ariaValueNow dom minSize leftPaneSize;
            right_minWidth := minWidth minSize;
            right_child := nth_error children 1 |}
  end.

(** The first call, where [useState] takes [initialSize] and no ref is set. *)
Definition unmounted : refs := {| splitPaneRef := None; dividerRef := None |}.

Definition mount (props : SplitPaneProps) (w : list listener)
  : result (state * view) :=
  let initial :=
    match initialSize props with Some v => v | None => defaultInitialSize end in
  match SplitPane props initial unmounted with
  | Throw m => Throw m
  | Ok v => Ok ({| leftPaneSize := initial; window := w |}, v)
  end.

(** ** The arithmetic in binary64 *)

(** The arithmetic of [convertPixelToPercentage] once more, on the binary64
    floating-point numbers that JavaScript computes with, for a mounted
    container and for sizes that are numbers.  It serves to show where a
    statement of exact arithmetic would not be true of the code. *)
Module Double.

Import Floats.
Local Open Scope float_scope.

(** The body of [convertPixelToPercentage] from [px - splitPaneRect.left]
    on, with [minPixel] given. *)
Definition convertPixelToPercentage (left width minPixel px : float)
  : float :=
  let leftPaneSize := px - left in
  let leftPaneSize :=
    if leftPaneSize <? minPixel then minPixel
    else if (width - minPixel) <? leftPaneSize then width - minPixel
         else leftPaneSize in
  leftPaneSize / width * 100.

(** [percent] of [totalSize] in pixels, computed as the conversion computes
    [minPixel] from a percentage. *)
Definition pixels (percent totalSize : float) : float :=
  percent / 100 * totalSize.

End Double.

(** ** Words of the specification *)

Local Open Scope list_scope.

(** Clamping [v] to [[lo, hi]], as [Math.min(Math.max(v, lo), hi)]. *)
Definition clamp (v lo hi : number) : number := Js.min (Js.max v lo) hi.

(** A size normalized to pixels against the container width [totalSize]:
    the normalization that the source applies to [minSize]. *)
Definition toPixels (v : size) (totalSize : number) : number :=
  minPixel v totalSize.

(** [lo <= v <= hi] *)
Definition within (v lo hi : number) : bool := le lo v && le v hi.

(** The callbacks of this instance, as opposed to the listeners that other
    code has put on [window]. *)
Definition own (cb : callback) : bool :=
  match cb with
  | Fn_other _ => false
  | _ => true
  end.

Definition foreign (w : list listener) : bool :=
  forallb (fun l => negb (own (snd l))) w.

(** The listeners that the instance ever registers. *)
Definition instanceListeners : list listener :=
  [ ("mousemove", Fn_handleMouseMove); ("mouseup", Fn_removeEventListeners);
    ("touchmove", Fn_handleTouchMove); ("touchend", Fn_removeEventListeners) ].

(** The registry of a window that held [w0] when the instance was mounted:
    [w0] followed by listeners of the instance, each at most once. *)
Definition registered (w0 w : list listener) : Prop :=
  exists mine, w = w0 ++ mine /\ NoDup mine /\ incl mine instanceListeners.

(** The left-pane size, normalized to pixels against the container width
    [W], lies within [[m, W - m]] for the normalized minimum [m]. *)
Definition in_bounds (minSize : size) (W : number) (st : state) : Prop :=
  within (toPixels (leftPaneSize st) W) (minPixel minSize W)
    (sub W (minPixel minSize W)) = true.

(** The left-pane size is the string [`${p}%`] with [lo <= p <= hi]. *)
Definition percentage_between (lo hi : number) (st : state) : Prop :=
  exists p, leftPaneSize st = Pct p /\ within p lo hi = true.

(** The container is mounted with its left edge at [l] and the width [w]. *)
Definition geometry (l w : Qc) (dom : refs) : Prop :=
  exists current,
    splitPaneRef dom = Some current
    /\ getBoundingClientRect current = {| left := Fin l; width := Fin w |}.

(** The container is mounted with a positive width that leaves room for the
    minimum on both sides: [0 <= m <= W - m]. *)
Definition roomy (minSize : size) (dom : refs) : Prop :=
  exists l w,
    geometry l w dom
    /\ (0 < w)%Qc
    /\ le (int 0) (minPixel minSize (Fin w)) = true
    /\ le (minPixel minSize (Fin w))
          (sub (Fin w) (minPixel minSize (Fin w))) = true.

(** The coordinates that an action hands to the component are numbers
    other than [NaN], and a [mousemove] or [touchmove] event comes with the
    event object of its type. *)
Definition pointer_ok (dom : refs) (a : action) : bool :=
  match a with
  | onKeyDown _ =>
      match dividerRef dom with
      | Some current => negb (isNaN (left (getBoundingClientRect current)))
      | None => true
      end
  | onWindowEvent type event =>
      if String.eqb type "mousemove" then
        match event with
        | MouseEvent clientX => negb (isNaN clientX)
        | TouchEvent _ => false
        end
      else if String.eqb type "touchmove" then
        match event with
        | TouchEvent (pageX :: _) => negb (isNaN pageX)
        | _ => true
        end
      else true
  | _ => true
  end.

(** The layout puts the left edge of the divider at the right edge of the
    left pane: the left edge of the container plus the width in pixels of
    the left-pane size [v]. *)
Definition divider_at (L W : number) (v : size) (dom : refs) : Prop :=
  exists current,
    dividerRef dom = Some current
    /\ left (getBoundingClientRect current) = add L (toPixels v W).

(** The [minSize] and [initialSize] that a call of the component works
    with, defaults included. *)
Definition minSizeOf (props : SplitPaneProps) : size :=
  match minSize props with Some v => v | None => defaultMinSize end.

Definition initialSizeOf (props : SplitPaneProps) : size :=
  match initialSize props with Some v => v | None => defaultInitialSize end.

(** The call ends by throwing an error with this message. *)
Definition throws {A : Type} (message : string) (r : result A) : bool :=
  match r with
  | Throw m => String.eqb m message
  | Ok _ => false
  end.

(** The current width of the divider; no divider, no width. *)
Definition dividerWidth (dom : refs) : number :=
  match dividerRef dom with
  | Some current => clientWidth current
  | None => int 0
  end.

(** A size expressed as a percentage of the container width [W]: the number
    in front of the ['%'] of a percentage string, and [pixels / W * 100]
    for a pixel value. *)
Definition asPercentage (v : size) (W : number) : number :=
  if isString v && isPercentage (toStr v)
  then parseFloat (replacePercent (toStr v))
  else mul (div (Number v) W) (int 100).

(** What the validation lets through: a number that is neither [NaN] nor
    below zero. *)
Definition acceptable (n : number) : bool := negb (isNaN n) && negb (lt n (int 0)).

(** An action that can move the divider: a key, or a [mousemove] or
    [touchmove] fired on [window]. *)
Definition moving (a : action) : bool :=
  match a with
  | onKeyDown _ => true
  | onWindowEvent type _ =>
      String.eqb type "mousemove" || String.eqb type "touchmove"
  | _ => false
  end.

(** The call ends with the child-count error of the component. *)
Definition childCountError {A : Type} (r : completion A) : bool :=
  match r with
  | ThrowError m => String.eqb m "SplitPane must have exactly two children."
  | _ => false
  end.

(** Props with two children, for examples. *)
Definition twoChildren (initialSize minSize : option size) : SplitPaneProps :=
  {| children := [JSX 0; JSX 1]; initialSize := initialSize;
     minSize := minSize |}.

(** A container and a divider with integer geometry, for examples. *)
Definition container (l w : Z) : HTMLDivElement :=
  {| getBoundingClientRect := {| left := int l; width := int w |};
     clientWidth := int w |}.

(** ** Facts about numbers *)

Section Numbers.

Local Open Scope Qc_scope.

Lemma Qcltb_true (a b : Qc) : Qcltb a b = true <-> a < b.
Proof.
  unfold Qcltb, Qclt. rewrite Qlt_alt.
  destruct (this a ?= this b)%Q; split; congruence.
Qed.

Lemma Qcltb_false (a b : Qc) : Qcltb a b = false <-> b <= a.
Proof.
  unfold Qcltb, Qcle. rewrite Qle_alt, <- (Qcompare_antisym (this a) (this b)).
  destruct (this a ?= this b)%Q; simpl; split; congruence.
Qed.

Lemma sign_Eq (a : Qc) : sign a = Eq <-> a = 0.
Proof.
  unfold sign. rewrite <- Qeq_alt. split.
  - intros H. apply Qc_is_canon. exact H.
  - intros ->. reflexivity.
Qed.

Lemma sign_Lt (a : Qc) : sign a = Lt <-> a < 0.
Proof. unfold sign, Qclt. rewrite Qlt_alt. reflexivity. Qed.

Lemma sign_Gt (a : Qc) : sign a = Gt <-> 0 < a.
Proof. unfold sign, Qclt. rewrite Qgt_alt. reflexivity. Qed.

Lemma Qc_nonzero (a : Qc) : a <> 0 -> ~ (this a == 0)%Q.
Proof. intros H E. apply H, Qc_is_canon, E. Qed.

Lemma Fin_inj (a b : Qc) : Fin a = Fin b -> a = b.
Proof. intros H. now injection H. Qed.

Lemma le_not_lt (a b : number) : le a b = true -> lt b a = false.
Proof.
  destruct a, b; simpl; try congruence.
  intros H. now apply negb_true_iff in H.
Qed.

Lemma le_not_NaN (a b : number) :
  le a b = true -> isNaN a = false /\ isNaN b = false.
Proof. destruct a, b; simpl; intuition congruence. Qed.

End Numbers.

(** Turns a goal about [Qc] into one about [Q], where [lra], [nra] and
    [field] know the constants. *)
Ltac qc2q :=
  unfold Qclt, Qcle, Qcdiv, Qcminus, Qcplus, Qcopp, Qcmult, Qcinv in *;
  cbn [this Q2Qc] in *;
  repeat match goal with
  | H : context [Qred ?q] |- _ => setoid_rewrite (Qred_correct q) in H
  | |- context [Qred ?q] => setoid_rewrite (Qred_correct q)
  end;
  unfold inject_Z in *.

(** Moves the comparisons computed by the code into the context as
    inequalities. *)
Ltac qc_cases :=
  repeat match goal with
  | H : Qcltb _ _ = true |- _ => apply Qcltb_true in H
  | H : Qcltb _ _ = false |- _ => apply Qcltb_false in H
  | H : negb (Qcltb _ _) = true |- _ => apply negb_true_iff in H
  | H : negb (Qcltb _ _) = false |- _ => apply negb_false_iff in H
  | H : sign _ = Eq |- _ => apply sign_Eq in H
  | H : sign _ = Lt |- _ => apply sign_Lt in H
  | H : sign _ = Gt |- _ => apply sign_Gt in H
  end.

(** Closed equations between numbers. *)
Ltac js_compute :=
  vm_compute;
  repeat match goal with
  | |- _ /\ _ => split
  | |- Fin _ = Fin _ => apply f_equal, Qc_is_canon; reflexivity
  | |- Pct _ = Pct _ => apply f_equal
  | |- Num _ = Num _ => apply f_equal
  | |- Some _ = Some _ => apply f_equal
  | |- Fmt _ _ = Fmt _ _ => apply f_equal2; [ | reflexivity ]
  | |- _ => reflexivity
  end.

(** ** Pointer-to-position conversion *)

Section Conversion.

Lemma code_clamp (v lo hi : number) :
  le lo hi = true ->
  (if lt v lo then lo else if gt v hi then hi else v) = clamp v lo hi.
Proof.
  intros H. pose proof (le_not_lt _ _ H) as Hlt.
  destruct (le_not_NaN _ _ H) as [Hlo Hhi].
  unfold clamp, gt.
  destruct v as [ | | | v]; destruct lo as [ | | | lo]; try discriminate;
    destruct hi as [ | | | hi]; try discriminate; simpl in *;
    try reflexivity; try discriminate;
    repeat match goal with
    | |- context [Qcltb ?a ?b] => destruct (Qcltb a b) eqn:?; simpl
    end; try reflexivity; try congruence.
Qed.

End Conversion.

Section ConversionFacts.

Local Open Scope Qc_scope.

Ltac by_cases :=
  unfold gt, sub, int in *; simpl in *; try discriminate; try reflexivity;
  qc_cases; try discriminate.

Lemma left_of_container (x L m : number) :
  lt x L = true -> le (int 0) m = true -> lt (sub x L) m = true.
Proof.
  intros H1 H2.
  destruct x as [ | | | x], L as [ | | | l], m as [ | | | m]; by_cases.
  apply Qcltb_true. qc2q. lra.
Qed.

Lemma right_of_container (x L W m : number) :
  gt x (add L W) = true -> le (int 0) m = true -> le m (sub W m) = true ->
  lt (sub x L) m = false /\ gt (sub x L) (sub W m) = true.
Proof.
  intros H1 H2 H3.
  destruct x as [ | | | x], L as [ | | | l], W as [ | | | w], m as [ | | | m];
    by_cases; try (split; reflexivity).
  split; [ apply Qcltb_false | apply Qcltb_true ]; qc2q; lra.
Qed.

End ConversionFacts.

Section PointerToPosition.

Local Open Scope Qc_scope.

(** C1, as amended: when the normalized minimum [m] satisfies
    [0 <= m <= W - m], the conversion of a pointer coordinate [x] returns
    [clamp(x - L, m, W - m) / W * 100]; a coordinate left of the container
    gives [m / W * 100], the percentage of [m] pixels, and one past the
    right edge [(W - m) / W * 100], the percentage of [W - m] pixels. *)
Theorem convertPixelToPercentage_clamps
  (current : HTMLDivElement) (minSize : size) (x : number) :
  let L := left (getBoundingClientRect current) in
  let W := width (getBoundingClientRect current) in
  let m := minPixel minSize W in
  let p := convertPixelToPercentage (Some current) minSize (Num x) in
  le (int 0) m = true ->
  le m (sub W m) = true ->
  p = mul (div (clamp (sub x L) m (sub W m)) W) (int 100)
  /\ (lt x L = true -> p = mul (div m W) (int 100))
  /\ (gt x (add L W) = true -> p = mul (div (sub W m) W) (int 100)).
Proof.
  intros L W m p H0 Hm.
  assert (Hp : p = mul (div (if lt (sub x L) m then m
                             else if gt (sub x L) (sub W m) then sub W m
                             else sub x L) W) (int 100)) by reflexivity.
  assert (Hleft : lt x L = true -> p = mul (div m W) (int 100)).
  { intros Hx. rewrite Hp, (left_of_container x L m Hx H0). reflexivity. }
  assert (Hright : gt x (add L W) = true -> p = mul (div (sub W m) W) (int 100)).
  { intros Hx. destruct (right_of_container x L W m Hx H0 Hm) as [E1 E2].
    rewrite Hp, E1, E2. reflexivity. }
  split; [ | split ]; auto.
  rewrite Hp. now rewrite code_clamp.
Qed.

Lemma convertPixelToPercentage_clamps_witness :
  let current := container 0 1000 in
  let m := minPixel (Num (int 50)) (int 1000) in
  let p := convertPixelToPercentage (Some current) (Num (int 50))
             (Num (int (-1000))) in
  (le (int 0) m = true /\ le m (sub (int 1000) m) = true)
  /\ p = mul (div (clamp (sub (int (-1000)) (int 0)) m (sub (int 1000) m))
                 (int 1000)) (int 100).
Proof.
  intros current m p. split.
  - split; reflexivity.
  - apply (convertPixelToPercentage_clamps current (Num (int 50)) (int (-1000)));
      reflexivity.
Defined.

(** C1 as stated fails where the minimum exceeds the container width: with
    a container of width 100 at the left edge 0 and [minSize = 200], the
    coordinate 150 is past the right edge and the conversion returns 200%,
    a left pane of 200 pixels, where the claim asks for [W - m], that is
    -100 pixels. *)
Lemma convertPixelToPercentage_wide_minimum :
  let current := container 0 100 in
  let L := int 0 in
  let W := int 100 in
  let m := minPixel (Num (int 200)) W in
  let p := convertPixelToPercentage (Some current) (Num (int 200))
             (Num (int 150)) in
  gt (int 150) (add L W) = true
  /\ p = int 200
  /\ toPixels (Pct p) W = int 200
  /\ sub W m = int (-100)
  /\ toPixels (Pct p) W <> sub W m
  /\ p <> mul (div (clamp (sub (int 150) L) m (sub W m)) W) (int 100).
Proof.
  cbv zeta. repeat split; try js_compute; intros H; vm_compute in H;
    discriminate H.
Qed.

End PointerToPosition.

(** ** The listener registry *)

Section Registry.

Lemma callback_eqb_eq (a b : callback) : callback_eqb a b = true <-> a = b.
Proof.
  destruct a, b; simpl; split; try congruence; try discriminate.
  - intros H. apply Nat.eqb_eq in H. congruence.
  - intros H. injection H as ->. apply Nat.eqb_refl.
Qed.

Lemma listener_eqb_eq (a b : listener) : listener_eqb a b = true <-> a = b.
Proof.
  destruct a as [t c], b as [t' c']. unfold listener_eqb. simpl.
  rewrite andb_true_iff, String.eqb_eq, callback_eqb_eq.
  split; [ intros [-> ->]; reflexivity | intros H; injection H; auto ].
Qed.

Lemma listener_eqb_refl (a : listener) : listener_eqb a a = true.
Proof. now apply listener_eqb_eq. Qed.

Lemma listener_eqb_foreign (type : string) (cb : callback) (l : listener) :
  own cb = true -> own (snd l) = false -> listener_eqb (type, cb) l = false.
Proof.
  intros Hc Hl. destruct (listener_eqb (type, cb) l) eqn:E; [ | reflexivity ].
  apply listener_eqb_eq in E. subst l. simpl in Hl. congruence.
Qed.

Lemma existsb_listener (l : listener) (w : list listener) :
  existsb (listener_eqb l) w = true <-> In l w.
Proof.
  rewrite existsb_exists. split.
  - intros [x [Hx E]]. apply listener_eqb_eq in E. now subst.
  - intros H. exists l. split; [ exact H | apply listener_eqb_refl ].
Qed.

Lemma foreign_cons (l : listener) (w : list listener) :
  foreign (l :: w) = true -> own (snd l) = false /\ foreign w = true.
Proof.
  unfold foreign. simpl. rewrite andb_true_iff, negb_true_iff. auto.
Qed.

Lemma removeEventListener_foreign (type : string) (cb : callback)
  (w0 mine : list listener) :
  foreign w0 = true -> own cb = true ->
  removeEventListener type cb (w0 ++ mine)
  = w0 ++ removeEventListener type cb mine.
Proof.
  intros Hw Hc. induction w0 as [ | l w0 IH]; [ reflexivity | ].
  apply foreign_cons in Hw. destruct Hw as [Hl Hw]. simpl.
  rewrite (listener_eqb_foreign type cb l Hc Hl), (IH Hw). reflexivity.
Qed.

Lemma addEventListener_foreign (type : string) (cb : callback)
  (w0 mine : list listener) :
  foreign w0 = true -> own cb = true ->
  addEventListener type cb (w0 ++ mine)
  = w0 ++ addEventListener type cb mine.
Proof.
  intros Hw Hc. unfold addEventListener.
  assert (E : existsb (listener_eqb (type, cb)) w0 = false).
  { clear mine. induction w0 as [ | l w0 IH]; [ reflexivity | ].
    apply foreign_cons in Hw. destruct Hw as [Hl Hw]. simpl.
    now rewrite (listener_eqb_foreign type cb l Hc Hl), (IH Hw). }
  rewrite existsb_app, E. simpl.
  destruct (existsb (listener_eqb (type, cb)) mine);
    [ reflexivity | now rewrite app_assoc ].
Qed.

Lemma removeEventListener_In (type : string) (cb : callback) (l : listener)
  (w : list listener) :
  In l (removeEventListener type cb w) -> In l w.
Proof.
  induction w as [ | a w IH]; simpl; [ auto | ].
  destruct (listener_eqb (type, cb) a); simpl; intuition.
Qed.

Lemma removeEventListener_NoDup (type : string) (cb : callback)
  (w : list listener) :
  NoDup w ->
  NoDup (removeEventListener type cb w)
  /\ ~ In (type, cb) (removeEventListener type cb w).
Proof.
  induction 1 as [ | a w Ha Hw IH]; simpl.
  - split; [ constructor | auto ].
  - destruct (listener_eqb (type, cb) a) eqn:E.
    + apply listener_eqb_eq in E. subst a. auto.
    + destruct IH as [IH1 IH2]. split.
      * constructor; [ | exact IH1 ].
        intros H. apply Ha. eapply removeEventListener_In, H.
      * simpl. intros [H | H]; [ | auto ].
        subst a. now rewrite listener_eqb_refl in E.
Qed.

Lemma removeEventListener_absent (type : string) (cb : callback)
  (w : list listener) :
  ~ In (type, cb) w -> removeEventListener type cb w = w.
Proof.
  induction w as [ | a w IH]; simpl; [ reflexivity | ].
  intros H. destruct (listener_eqb (type, cb) a) eqn:E.
  - apply listener_eqb_eq in E. subst a. tauto.
  - rewrite IH; tauto.
Qed.

Lemma addEventListener_NoDup (type : string) (cb : callback)
  (w : list listener) :
  NoDup w -> NoDup (addEventListener type cb w).
Proof.
  intros H. unfold addEventListener.
  destruct (existsb (listener_eqb (type, cb)) w) eqn:E; [ exact H | ].
  apply NoDup_app; [ exact H | repeat constructor; simpl; tauto | ].
  intros x Hx [<- | []].
  apply existsb_listener in Hx. congruence.
Qed.

Lemma addEventListener_incl (type : string) (cb : callback)
  (w s : list listener) :
  In (type, cb) s -> incl w s -> incl (addEventListener type cb w) s.
Proof.
  intros Hin H. unfold addEventListener.
  destruct (existsb (listener_eqb (type, cb)) w); [ exact H | ].
  apply incl_app; [ exact H | ]. intros x [<- | []]. exact Hin.
Qed.

Lemma removeEventListener_incl (type : string) (cb : callback)
  (w s : list listener) :
  incl w s -> incl (removeEventListener type cb w) s.
Proof. intros H x Hx. apply H. eapply removeEventListener_In, Hx. Qed.

(** Removing the four listeners of the instance leaves none of them. *)
Lemma remove_all_mine (mine : list listener) :
  NoDup mine -> incl mine instanceListeners ->
  removeEventListener "touchend" Fn_removeEventListeners
    (removeEventListener "touchmove" Fn_handleTouchMove
      (removeEventListener "mouseup" Fn_removeEventListeners
        (removeEventListener "mousemove" Fn_handleMouseMove mine))) = [].
Proof.
  intros Hn Hi.
  destruct (removeEventListener_NoDup "mousemove" Fn_handleMouseMove _ Hn)
    as [N1 A1].
  destruct (removeEventListener_NoDup "mouseup" Fn_removeEventListeners _ N1)
    as [N2 A2].
  destruct (removeEventListener_NoDup "touchmove" Fn_handleTouchMove _ N2)
    as [N3 A3].
  destruct (removeEventListener_NoDup "touchend" Fn_removeEventListeners _ N3)
    as [N4 A4].
  remember (removeEventListener "mousemove" Fn_handleMouseMove mine) as r1.
  remember (removeEventListener "mouseup" Fn_removeEventListeners r1) as r2.
  remember (removeEventListener "touchmove" Fn_handleTouchMove r2) as r3.
  remember (removeEventListener "touchend" Fn_removeEventListeners r3) as r4.
  destruct r4 as [ | l r']; [ reflexivity | exfalso ].
  assert (H4 : In l (l :: r')) by (left; reflexivity).
  assert (H3 : In l r3).
  { rewrite Heqr4 in H4. eapply removeEventListener_In, H4. }
  assert (H2 : In l r2).
  { rewrite Heqr3 in H3. eapply removeEventListener_In, H3. }
  assert (H1 : In l r1).
  { rewrite Heqr2 in H2. eapply removeEventListener_In, H2. }
  assert (H0 : In l mine).
  { rewrite Heqr1 in H1. eapply removeEventListener_In, H1. }
  apply Hi in H0. simpl in H0.
  destruct H0 as [<- | [<- | [<- | [<- | []]]]]; contradiction.
Qed.

End Registry.

(** ** Runs of the component *)

Section Runs.

Variable minSize : size.

Lemma dispatch_ind (P : state -> Prop) (dom : refs) (type : string)
  (event : Event) (st : state) :
  P st ->
  (forall l acc, fst l = type -> In l (window acc) -> P acc ->
                 P (call dom minSize (snd l) event acc)) ->
  P (dispatch dom minSize type event st).
Proof.
  intros H0 Hcall. unfold dispatch.
  generalize (window st) at 1. intros ws. revert st H0.
  induction ws as [ | l ws IH]; intros st H0; simpl; [ exact H0 | ].
  apply IH.
  destruct (String.eqb (fst l) type) eqn:Et; simpl; [ | exact H0 ].
  destruct (existsb (listener_eqb l) (window st)) eqn:El; [ | exact H0 ].
  apply String.eqb_eq in Et. apply existsb_listener in El. auto.
Qed.

Lemma registered_initial (w0 : list listener) : registered w0 w0.
Proof.
  exists []. rewrite app_nil_r.
  repeat split; [ constructor | intros x [] ].
Qed.

Lemma registered_remove (w0 : list listener) (st : state) :
  foreign w0 = true -> registered w0 (window st) ->
  window (removeEventListeners st) = w0.
Proof.
  intros Hf [mine [E [Hn Hi]]]. unfold removeEventListeners. simpl.
  rewrite E, !removeEventListener_foreign by (exact Hf || reflexivity).
  rewrite (remove_all_mine mine Hn Hi). apply app_nil_r.
Qed.

Lemma registered_add (w0 : list listener) (type : string) (cb : callback)
  (w : list listener) :
  foreign w0 = true -> own cb = true -> In (type, cb) instanceListeners ->
  registered w0 w -> registered w0 (addEventListener type cb w).
Proof.
  intros Hf Hc Hin [mine [E [Hn Hi]]]. subst w.
  exists (addEventListener type cb mine).
  rewrite addEventListener_foreign by assumption.
  repeat split.
  - now apply addEventListener_NoDup.
  - now apply addEventListener_incl.
Qed.

Lemma registered_call (w0 : list listener) (dom : refs) (cb : callback)
  (event : Event) (st : state) :
  foreign w0 = true -> registered w0 (window st) ->
  registered w0 (window (call dom minSize cb event st)).
Proof.
  intros Hf H. destruct cb; cbn [call]; try exact H.
  - destruct event; exact H.
  - destruct event as [ | [ | ? ?]]; exact H.
  - rewrite (registered_remove w0 st Hf H). apply registered_initial.
Qed.

Lemma registered_step (w0 : list listener) (dom : refs) (a : action)
  (st : state) :
  foreign w0 = true -> registered w0 (window st) ->
  registered w0 (window (step minSize dom a st)).
Proof.
  intros Hf H. destruct a; cbn [step].
  - apply registered_add; simpl; auto.
    apply registered_add; simpl; auto.
  - apply registered_add; simpl; auto 6.
    apply registered_add; simpl; auto 6.
  - rewrite (registered_remove w0 st Hf H). apply registered_initial.
  - unfold handleKeyDown. destruct (dividerRef dom); [ | exact H ].
    repeat match goal with
    | |- context [if ?b then _ else _] => destruct b
    end; exact H.
  - apply (dispatch_ind (fun s => registered w0 (window s))); [ exact H | ].
    intros l acc _ _ Hacc. now apply registered_call.
  - rewrite (registered_remove w0 st Hf H). apply registered_initial.
Qed.

Lemma registered_run (w0 : list listener) (trace : list (refs * action))
  (st : state) :
  foreign w0 = true -> registered w0 (window st) ->
  registered w0 (window (run minSize trace st)).
Proof.
  intros Hf. revert st.
  induction trace as [ | [dom a] trace IH]; intros st H; simpl; [ exact H | ].
  apply IH. now apply registered_step.
Qed.

(** A listener that is registered for a type and belongs to the instance
    is one of the four, so its callback fits the type. *)
Lemma registered_In (w0 : list listener) (w : list listener) (l : listener) :
  foreign w0 = true -> registered w0 w -> In l w ->
  own (snd l) = false \/ In l instanceListeners.
Proof.
  intros Hf [mine [E [_ Hi]]] Hl. subst w.
  apply in_app_or in Hl. destruct Hl as [Hl | Hl]; [ left | right; auto ].
  unfold foreign in Hf. rewrite forallb_forall in Hf.
  apply Hf in Hl. now apply negb_true_iff in Hl.
Qed.

End Runs.

(** ** Unmounting *)

Section Unmount.

Lemma foreign_In (w : list listener) (l : listener) :
  foreign w = true -> In l w -> own (snd l) = false.
Proof.
  unfold foreign. rewrite forallb_forall. intros H Hl.
  apply H in Hl. now apply negb_true_iff in Hl.
Qed.

Lemma removeEventListeners_foreign (st : state) :
  foreign (window st) = true -> removeEventListeners st = st.
Proof.
  intros Hf. destruct st as [v w]. unfold removeEventListeners, onWindow.
  simpl in *. f_equal.
  assert (Ha : forall type cb, own cb = true ->
                removeEventListener type cb w = w).
  { intros type cb Hc. apply removeEventListener_absent. intros H.
    apply (foreign_In _ _ Hf) in H. simpl in H. congruence. }
  now rewrite !Ha.
Qed.

Lemma dispatch_foreign (minSize : size) (dom : refs) (type : string)
  (event : Event) (st : state) :
  foreign (window st) = true -> dispatch dom minSize type event st = st.
Proof.
  intros Hf.
  apply (dispatch_ind minSize (fun s => s = st)); [ reflexivity | ].
  intros l acc _ Hl ->. apply (foreign_In _ _ Hf) in Hl.
  destruct (snd l); try discriminate Hl. reflexivity.
Qed.

(** C8: in every state that a run reaches from a mount into a window that
    holds only listeners of others - in the middle of a drag too - the
    clean-up at unmount leaves the window with exactly the listeners it had
    before the mount: none of the instance's [mousemove], [mouseup],
    [touchmove], [touchend] listeners survives, no later [window] event
    reaches the instance, and removing again changes nothing. *)
Theorem unmount_removes_listeners (minSize initial : size)
  (w0 : list listener) (trace : list (refs * action)) (dom : refs) :
  foreign w0 = true ->
  let st := run minSize trace {| leftPaneSize := initial; window := w0 |} in
  let st' := step minSize dom unmount st in
  window st' = w0
  /\ (forall l, In l instanceListeners -> ~ In l (window st'))
  /\ (forall dom' type event,
        step minSize dom' (onWindowEvent type event) st' = st')
  /\ removeEventListeners st' = st'.
Proof.
  intros Hf st st'.
  assert (Hw : window st' = w0).
  { apply registered_remove; [ exact Hf | ].
    apply registered_run; [ exact Hf | apply registered_initial ]. }
  assert (Hf' : foreign (window st') = true) by (rewrite Hw; exact Hf).
  split; [ exact Hw | split; [ | split ] ].
  - intros l Hl Hin. apply (foreign_In _ _ Hf') in Hin.
    simpl in Hl. destruct Hl as [<- | [<- | [<- | [<- | []]]]];
      discriminate Hin.
  - intros dom' type event. now apply dispatch_foreign.
  - now apply removeEventListeners_foreign.
Qed.

(** Unmounting in the middle of a mouse drag, with a listener of somebody
    else on [window]. *)
Lemma unmount_removes_listeners_witness :
  let w0 := [("resize", Fn_other 7)] in
  let dom := {| splitPaneRef := Some (container 0 1000);
                dividerRef := Some (container 500 4) |} in
  let trace := [(dom, onMouseDown);
                (dom, onWindowEvent "mousemove" (MouseEvent (int 400)))] in
  let st := run defaultMinSize trace
              {| leftPaneSize := defaultInitialSize; window := w0 |} in
  foreign w0 = true
  /\ window st = w0 ++ [("mousemove", Fn_handleMouseMove);
                        ("mouseup", Fn_removeEventListeners)]
  /\ window (step defaultMinSize dom unmount st) = w0.
Proof.
  intros w0 dom trace st. split; [ reflexivity | split; [ reflexivity | ] ].
  apply (unmount_removes_listeners defaultMinSize defaultInitialSize w0 trace
           dom).
  reflexivity.
Defined.

End Unmount.

(** ** Dragging *)

Section Dragging.

Variable minSize : size.
Variable dom : refs.

Lemma dispatch_others (type : string) (event : Event) (ws : list listener)
  (st : state) :
  foreign ws = true ->
  fold_left
    (fun acc l =>
       if String.eqb (fst l) type && existsb (listener_eqb l) (window acc)
       then call dom minSize (snd l) event acc
       else acc) ws st = st.
Proof.
  induction ws as [ | l ws IH]; intros Hf; [ reflexivity | ].
  apply foreign_cons in Hf. destruct Hf as [Hl Hf]. simpl.
  destruct (snd l); try discriminate Hl. cbn [call].
  destruct (_ && _); now apply IH.
Qed.

Lemma handleMouseDown_window (st : state) :
  foreign (window st) = true ->
  window (handleMouseDown st)
  = window st ++ [("mousemove", Fn_handleMouseMove);
                  ("mouseup", Fn_removeEventListeners)].
Proof.
  intros Hf. unfold handleMouseDown. cbn [window onWindow].
  rewrite <- (app_nil_r (window st)) at 1.
  now rewrite !addEventListener_foreign.
Qed.

Lemma handleTouchStart_window (st : state) :
  foreign (window st) = true ->
  window (handleTouchStart st)
  = window st ++ [("touchmove", Fn_handleTouchMove);
                  ("touchend", Fn_removeEventListeners)].
Proof.
  intros Hf. unfold handleTouchStart. cbn [window onWindow].
  rewrite <- (app_nil_r (window st)) at 1.
  now rewrite !addEventListener_foreign.
Qed.

Lemma In_existsb (l : listener) (ws : list listener) :
  In l ws -> existsb (listener_eqb l) ws = true.
Proof. apply existsb_listener. Qed.

(** The drag of the state machine: pressing the mouse on the divider
    registers the two listeners, every [mousemove] on [window] is then one
    move at [clientX], and [mouseup] leaves the state as the last move
    left it, with the listeners gone. *)
Lemma mouse_drag (x : number) (event : Event) (st : state) :
  foreign (window st) = true ->
  let dragging := step minSize dom onMouseDown st in
  step minSize dom (onWindowEvent "mousemove" (MouseEvent x)) dragging
  = handleMove dom minSize x dragging
  /\ step minSize dom (onWindowEvent "mouseup" event) dragging = st.
Proof.
  intros Hf dragging.
  assert (Hw : window dragging
               = window st ++ [("mousemove", Fn_handleMouseMove);
                               ("mouseup", Fn_removeEventListeners)])
    by now apply handleMouseDown_window.
  assert (Hmm : existsb (listener_eqb ("mousemove", Fn_handleMouseMove))
                  (window dragging) = true).
  { apply In_existsb. rewrite Hw. apply in_or_app. right. simpl. auto. }
  assert (Hmu : existsb (listener_eqb ("mouseup", Fn_removeEventListeners))
                  (window dragging) = true).
  { apply In_existsb. rewrite Hw. apply in_or_app. right. simpl. auto. }
  split; cbn [step]; unfold dispatch; rewrite Hw at 1;
    rewrite fold_left_app, (dispatch_others _ _ _ _ Hf);
    cbn [fold_left fst snd].
  - change (String.eqb "mousemove" "mousemove") with true.
    change (String.eqb "mouseup" "mousemove") with false.
    rewrite Hmm. reflexivity.
  - change (String.eqb "mousemove" "mouseup") with false.
    change (String.eqb "mouseup" "mouseup") with true.
    cbn [andb]. rewrite Hmu. cbn [call].
    destruct st as [v w]. unfold removeEventListeners, onWindow.
    cbn [leftPaneSize window] in *. f_equal.
    rewrite Hw. rewrite !removeEventListener_foreign by (exact Hf || reflexivity).
    cbn. apply app_nil_r.
Qed.

(** The same with a finger: [touchstart], [touchmove] at the [pageX] of
    the first touch, [touchend]. *)
Lemma touch_drag (pageX : number) (others : list number) (event : Event)
  (st : state) :
  foreign (window st) = true ->
  let dragging := step minSize dom onTouchStart st in
  step minSize dom
    (onWindowEvent "touchmove" (TouchEvent (pageX :: others))) dragging
  = handleMove dom minSize pageX dragging
  /\ step minSize dom (onWindowEvent "touchend" event) dragging = st.
Proof.
  intros Hf dragging.
  assert (Hw : window dragging
               = window st ++ [("touchmove", Fn_handleTouchMove);
                               ("touchend", Fn_removeEventListeners)])
    by now apply handleTouchStart_window.
  assert (Hmm : existsb (listener_eqb ("touchmove", Fn_handleTouchMove))
                  (window dragging) = true).
  { apply In_existsb. rewrite Hw. apply in_or_app. right. simpl. auto. }
  assert (Hmu : existsb (listener_eqb ("touchend", Fn_removeEventListeners))
                  (window dragging) = true).
  { apply In_existsb. rewrite Hw. apply in_or_app. right. simpl. auto. }
  split; cbn [step]; unfold dispatch; rewrite Hw at 1;
    rewrite fold_left_app, (dispatch_others _ _ _ _ Hf);
    cbn [fold_left fst snd].
  - change (String.eqb "touchmove" "touchmove") with true.
    change (String.eqb "touchend" "touchmove") with false.
    rewrite Hmm. reflexivity.
  - change (String.eqb "touchmove" "touchend") with false.
    change (String.eqb "touchend" "touchend") with true.
    cbn [andb]. rewrite Hmu. cbn [call].
    destruct st as [v w]. unfold removeEventListeners, onWindow.
    cbn [leftPaneSize window] in *. f_equal.
    rewrite Hw. rewrite !removeEventListener_foreign by (exact Hf || reflexivity).
    cbn. apply app_nil_r.
Qed.

End Dragging.

(** ** The representation of the left-pane size *)

Section Representation.

Variable minSize : size.

Lemma call_leftPaneSize (dom : refs) (cb : callback) (event : Event)
  (st : state) :
  leftPaneSize (call dom minSize cb event st) = leftPaneSize st
  \/ exists p, leftPaneSize (call dom minSize cb event st) = Pct p.
Proof.
  destruct cb; cbn [call]; auto.
  - destruct event; right; eexists; reflexivity.
  - destruct event as [ | [ | ? ?]]; auto. right; eexists; reflexivity.
Qed.

Lemma step_leftPaneSize (dom : refs) (a : action) (st : state) :
  leftPaneSize (step minSize dom a st) = leftPaneSize st
  \/ exists p, leftPaneSize (step minSize dom a st) = Pct p.
Proof.
  destruct a; cbn [step]; auto.
  - unfold handleKeyDown. destruct (dividerRef dom); auto.
    repeat match goal with
    | |- context [if ?b then _ else _] => destruct b
    end; auto; right; eexists; reflexivity.
  - apply (dispatch_ind minSize
             (fun s => leftPaneSize s = leftPaneSize st
                       \/ exists p, leftPaneSize s = Pct p)); auto.
    intros l acc _ _ [H | H];
      destruct (call_leftPaneSize dom (snd l) event acc) as [E | E]; auto.
    + left. congruence.
    + right. destruct H as [p H]. exists p. congruence.
Qed.

Lemma run_percentage (trace : list (refs * action)) (st : state) :
  (exists p, leftPaneSize st = Pct p) ->
  exists p, leftPaneSize (run minSize trace st) = Pct p.
Proof.
  revert st. induction trace as [ | [dom a] trace IH]; intros st H; simpl;
    [ exact H | ].
  apply IH. destruct (step_leftPaneSize dom a st) as [E | E]; [ | exact E ].
  destruct H as [p H]. exists p. congruence.
Qed.

(** C7: a move stores the computed value as the string [`${p}%`], whatever
    the size was before; from then on every action of a run leaves a
    string of that form in the state, it is recognised as a percentage,
    and the [flexBasis] of the left slot is that same string. *)
Theorem leftPaneSize_stays_percentage (dom : refs) (x : number) (st : state)
  (trace : list (refs * action)) :
  let moved := handleMove dom minSize x st in
  leftPaneSize moved
  = Pct (convertPixelToPercentage (splitPaneRef dom) minSize (Num x))
  /\ exists p,
       leftPaneSize (run minSize trace moved) = Pct p
       /\ toStr (leftPaneSize (run minSize trace moved)) = Fmt p Percent
       /\ isString (Pct p) && isPercentage (toStr (Pct p)) = true
       /\ flexBasis (leftPaneSize (run minSize trace moved)) = Fmt p Percent.
Proof.
  intros moved. split; [ reflexivity | ].
  destruct (run_percentage trace moved) as [p Hp];
    [ eexists; reflexivity | ].
  exists p. rewrite Hp. repeat split.
Qed.

End Representation.

(** ** The bounds of the left pane *)

Section Bounds.

Local Open Scope Qc_scope.

Lemma clamp_within (v lo hi : number) :
  le lo hi = true -> isNaN v = false ->
  within (if lt v lo then lo else if gt v hi then hi else v) lo hi = true
  /\ isNaN (if lt v lo then lo else if gt v hi then hi else v) = false.
Proof.
  intros H Hv. unfold within, gt.
  destruct v as [ | | | v]; try discriminate Hv;
    destruct lo as [ | | | lo]; try discriminate H;
    destruct hi as [ | | | hi]; try discriminate H; simpl in *;
    try (split; reflexivity);
    repeat match goal with
    | |- context [Qcltb ?a ?b] => destruct (Qcltb a b) eqn:?; simpl
    end; try (split; reflexivity); try discriminate;
    exfalso; qc_cases; qc2q; lra.
Qed.

Lemma add_not_NaN (a : number) (z : Z) :
  isNaN a = false -> isNaN (add a (int z)) = false /\ isNaN (sub a (int z)) = false.
Proof. destruct a; simpl; auto; discriminate. Qed.

Lemma sub_not_NaN (a : number) (l : Qc) :
  isNaN a = false -> isNaN (sub a (Fin l)) = false.
Proof. destruct a; simpl; auto. Qed.

End Bounds.

Section BoundsTheorem.

Local Open Scope Qc_scope.

(** A percentage minimum of at most 50 leaves room between the bounds. *)
Lemma percentage_room (p w : Qc) :
  0 <= p -> p <= Q2Qc 50 -> 0 <= w ->
  le (mul (div (Fin p) (int 100)) (Fin w))
     (sub (Fin w) (mul (div (Fin p) (int 100)) (Fin w))) = true.
Proof.
  intros H0 H50 Hw. cbn. apply negb_true_iff, Qcltb_false.
  qc2q.
  assert (H : (0 <= (50 - this p) * this w)%Q)
    by (apply Qmult_le_0_compat; lra).
  assert (E : (this p * / 100 * this w == (1 # 100) * (this p * this w))%Q)
    by field.
  rewrite E. lra.
Qed.

End BoundsTheorem.

Section BoundsExamples.

Local Open Scope Qc_scope.

(** C2 as stated fails for a pixel minimum above half the container width:
    the props [minSize = 192], [initialSize = "50%"] pass the validation;
    in a container of width 256 a drag to [x = 100] stores 75%, which is
    192 pixels, while the upper bound [W - m] is 64 pixels. *)
Lemma leftPaneSize_out_of_bounds :
  let minSize := Num (int 192) in
  let W := int 256 in
  let dom := {| splitPaneRef := Some (container 0 256);
                dividerRef := Some (container 128 4) |} in
  let trace := [(dom, onMouseDown);
                (dom, onWindowEvent "mousemove" (MouseEvent (int 100)))] in
  let st := run minSize trace
              {| leftPaneSize := Text "50%"; window := [] |} in
  validateProps [JSX 0; JSX 1] (Text "50%") minSize = Ok tt
  /\ leftPaneSize st = Pct (int 75)
  /\ toPixels (leftPaneSize st) W = int 192
  /\ sub W (minPixel minSize W) = int 64
  /\ within (toPixels (leftPaneSize st) W) (minPixel minSize W)
       (sub W (minPixel minSize W)) = false
  /\ ~ in_bounds minSize W st.
Proof.
  cbv zeta. do 5 (split; [ js_compute | ]).
  unfold in_bounds. intros H. vm_compute in H. discriminate H.
Qed.

End BoundsExamples.

(** ** The arrow keys *)

Section ArrowKeys.

Local Open Scope Qc_scope.

Lemma le_trans (a b c : number) :
  le a b = true -> le b c = true -> le a c = true.
Proof.
  destruct a as [ | | | a], b as [ | | | b], c as [ | | | c]; simpl;
    try congruence.
  intros H1 H2. apply negb_true_iff in H1, H2. apply negb_true_iff.
  qc_cases. apply Qcltb_false. qc2q. lra.
Qed.

End ArrowKeys.

Section ArrowKeysRoundTrip.

Local Open Scope Qc_scope.

Lemma handleKeyDown_right (dom : refs) (minSize : size)
  (current : HTMLDivElement) (st : state) :
  dividerRef dom = Some current ->
  handleKeyDown dom minSize "ArrowRight" st
  = handleMove dom minSize
      (add (left (getBoundingClientRect current)) (int 10)) st.
Proof. intros H. unfold handleKeyDown. now rewrite H. Qed.

Lemma handleKeyDown_left (dom : refs) (minSize : size)
  (current : HTMLDivElement) (st : state) :
  dividerRef dom = Some current ->
  handleKeyDown dom minSize "ArrowLeft" st
  = handleMove dom minSize
      (sub (left (getBoundingClientRect current)) (int 10)) st.
Proof. intros H. unfold handleKeyDown. now rewrite H. Qed.


End ArrowKeysRoundTrip.

Section ArrowKeysExamples.

Local Open Scope Qc_scope.

Ltac layout current :=
  exists current; split; [ reflexivity | js_compute ].



End ArrowKeysExamples.

(** ** Before the container is mounted *)

Section Unmounted.

(** C10: with the container ref empty the conversion returns 0 for every
    input; a move, and an arrow key on a mounted divider, store [`${0}%`];
    the aria values of pixel-valued sizes are 0 (those of percentage
    strings are read from the string as always). *)
Theorem unmounted_container_gives_zero (minSize px value : size)
  (divider : option HTMLDivElement) (current : HTMLDivElement) (x : number)
  (st : state) :
  let dom := {| splitPaneRef := None; dividerRef := divider |} in
  let keyed := {| splitPaneRef := None; dividerRef := Some current |} in
  convertPixelToPercentage None minSize px = int 0
  /\ leftPaneSize (handleMove dom minSize x st) = Pct (int 0)
  /\ leftPaneSize (handleKeyDown keyed minSize "ArrowLeft" st) = Pct (int 0)
  /\ leftPaneSize (handleKeyDown keyed minSize "ArrowRight" st) = Pct (int 0)
  /\ flexBasis (Pct (int 0)) = Fmt (int 0) Percent
  /\ ariaValueMin dom minSize
     = (if isMinSizeInPercentage minSize
        then parseFloat (replacePercent (toStr minSize)) else int 0)
  /\ ariaValueNow dom minSize value
     = (if isString value && isPercentage (toStr value)
        then parseFloat (replacePercent (toStr value)) else int 0).
Proof. intros dom keyed. repeat split. Qed.

End Unmounted.

(** ** Props validation *)

Section Validation.

Lemma validateSize_message (v : size) (label : string) :
  validateSize v label = Ok tt
  \/ validateSize v label = Throw (label ++ " must be a number.")%string
  \/ validateSize v label = Throw (label ++ " must be a positive number.")%string.
Proof.
  unfold validateSize. destruct (isNaN (numberOf v)); auto.
  destruct (isNegative v); auto.
Qed.

Lemma validateProps_children (children : list element)
  (initialSize minSize : size) :
  throws "SplitPane must have exactly two children."
    (validateProps children initialSize minSize)
  = negb (Nat.eqb (List.length children) 2).
Proof.
  unfold validateProps.
  destruct (Nat.eqb (List.length children) 2); [ | reflexivity ]. simpl.
  destruct (validateSize_message initialSize "initialSize") as [E | [E | E]];
    rewrite E; try reflexivity.
  destruct (validateSize_message minSize "minSize") as [F | [F | F]];
    rewrite F; try reflexivity.
  match goal with |- context [if ?b then _ else _] => destruct b end;
    reflexivity.
Qed.

(** With an array of children, a call of the component, and so the mount,
    throws the child-count error exactly when the array does not have two
    elements; a call that throws yields no view and a mount that throws no
    state. *)
Lemma children_count_error (props : SplitPaneProps) (leftPaneSize : size)
  (dom : refs) (w : list listener) :
  throws "SplitPane must have exactly two children."
    (SplitPane props leftPaneSize dom)
  = negb (Nat.eqb (List.length (children props)) 2)
  /\ throws "SplitPane must have exactly two children." (mount props w)
     = negb (Nat.eqb (List.length (children props)) 2).
Proof.
  pose proof (validateProps_children (children props) (initialSizeOf props)
                (minSizeOf props)) as H.
  unfold mount, SplitPane. fold (initialSizeOf props) (minSizeOf props).
  destruct (validateProps (children props) (initialSizeOf props)
              (minSizeOf props)); auto.
Qed.

Lemma validateProps_array (l : list element) (initialSize minSize : size) :
  validatePropsOf (ChildArray l) initialSize minSize
  = match validateProps l initialSize minSize with
    | Ok _ => Normal tt
    | Throw m => ThrowError m
    end.
Proof.
  unfold validatePropsOf, validateProps, validateSizes. cbn [childrenLength].
  destruct (Nat.eqb (List.length l) 2); cbn [negb]; [ | reflexivity ].
  destruct (validateSize initialSize "initialSize") as [[] | ];
    [ | reflexivity ].
  destruct (validateSize minSize "minSize") as [[] | ]; [ | reflexivity ].
  now destruct (_ && _).
Qed.

Lemma validateSizes_message (initialSize minSize : size) :
  match validateSizes initialSize minSize with
  | Ok _ => True
  | Throw m => String.eqb m "SplitPane must have exactly two children." = false
  end.
Proof.
  unfold validateSizes.
  destruct (validateSize_message initialSize "initialSize") as [E | [E | E]];
    rewrite E; try reflexivity.
  destruct (validateSize_message minSize "minSize") as [F | [F | F]];
    rewrite F; try reflexivity.
  now destruct (_ && _).
Qed.



End Validation.

(** ** Rendering *)

Section Rendering.

Local Open Scope Qc_scope.

Lemma mul_comm (a b : number) : mul a b = mul b a.
Proof.
  destruct a, b; simpl; try reflexivity. apply f_equal. ring.
Qed.

Lemma or_else_zero (n : number) :
  isNaN n = false -> or_else (Some n) (int 0) = n.
Proof.
  destruct n as [ | | | q]; simpl; try reflexivity; try discriminate.
  intros _. destruct (sign q) eqn:E; try reflexivity.
  apply sign_Eq in E. subst q. unfold int. apply f_equal, Qc_is_canon.
  reflexivity.
Qed.

Lemma SplitPane_view (props : SplitPaneProps) (leftPaneSize : size)
  (dom : refs) (v : view) :
  SplitPane props leftPaneSize dom = Ok v ->
  container_minWidth v = containerMinWidth dom (minSizeOf props)
  /\ left_flexBasis v = flexBasis leftPaneSize
  /\ left_minWidth v = minWidth (minSizeOf props)
  /\ right_minWidth v = minWidth (minSizeOf props)
  /\ aria_valuemin v = ariaValueMin dom (minSizeOf props)
  /\ aria_valuemax v = sub (int 100) (ariaValueMin dom (minSizeOf props))
  /\ aria_valuenow v = ariaValueNow dom (minSizeOf props) leftPaneSize
  /\ aria_valuetext v
     = Fmt (ariaValueNow dom (minSizeOf props) leftPaneSize) PercentOfTheWidth.
Proof.
  unfold SplitPane. fold (initialSizeOf props) (minSizeOf props).
  destruct (validateProps _ _ _); [ | discriminate ].
  intros H. injection H as <-. repeat split.
Qed.

(** C9: in the view of a call that does not throw, the container has no
    [minWidth] when [minSize] is a percentage string, and otherwise its
    [minWidth] is twice [Number(minSize)] plus the [clientWidth] of the
    divider, where a divider that is not mounted counts as 0 wide. *)
Theorem container_min_width (props : SplitPaneProps) (leftPaneSize : size)
  (dom : refs) (v : view) :
  SplitPane props leftPaneSize dom = Ok v ->
  isNaN (dividerWidth dom) = false ->
  container_minWidth v
  = if isString (minSizeOf props) && isPercentage (toStr (minSizeOf props))
    then None
    else Some (add (mul (int 2) (Number (minSizeOf props))) (dividerWidth dom)).
Proof.
  intros H Hd. apply SplitPane_view in H. destruct H as [-> _].
  unfold containerMinWidth, isMinSizeInPercentage.
  destruct (isString (minSizeOf props) && isPercentage (toStr (minSizeOf props)));
    [ reflexivity | ].
  rewrite (mul_comm (int 2)). do 2 f_equal.
  unfold dividerWidth in *. destruct (dividerRef dom) as [current | ]; simpl.
  - now apply or_else_zero.
  - reflexivity.
Qed.

(** The default props rendered with a divider that is 4 pixels wide. *)
Lemma container_min_width_witness :
  let props := {| children := [JSX 0; JSX 1]; initialSize := None;
                  minSize := None |} in
  let dom := {| splitPaneRef := Some (container 0 1000);
                dividerRef := Some (container 500 4) |} in
  exists v,
    SplitPane props (Text "50%") dom = Ok v
    /\ isNaN (dividerWidth dom) = false
    /\ container_minWidth v
       = Some (add (mul (int 2) (int 100)) (int 4)).
Proof.
  intros props dom. eexists. split; [ reflexivity | ]. split; [ reflexivity | ].
  apply (container_min_width props (Text "50%") dom); reflexivity.
Defined.

End Rendering.

(** ** The accessibility values of the divider *)

Section Aria.

Local Open Scope Qc_scope.

Lemma sub_zero (a : number) : sub a (int 0) = a.
Proof.
  destruct a as [ | | | q]; try reflexivity.
  cbn. apply f_equal, Qc_is_canon. qc2q. ring.
Qed.

Lemma getPercentage_percentage (current : option HTMLDivElement)
  (minSize value : size) :
  isString value && isPercentage (toStr value) = true ->
  getPercentage current minSize value
  = parseFloat (replacePercent (toStr value)).
Proof. intros H. unfold getPercentage. now rewrite H. Qed.

Lemma getPercentage_pixels (minSize value : size) (w : Qc) (dom : refs) :
  isString value && isPercentage (toStr value) = false ->
  geometry 0 w dom ->
  le (minPixel minSize (Fin w)) (sub (Fin w) (minPixel minSize (Fin w))) = true ->
  getPercentage (splitPaneRef dom) minSize value
  = mul (div (clamp (numberOf value) (minPixel minSize (Fin w))
                (sub (Fin w) (minPixel minSize (Fin w)))) (Fin w)) (int 100).
Proof.
  intros Hv [current [Hc Hr]] Hroom. unfold getPercentage.
  rewrite Hv, Hc. unfold convertPixelToPercentage. rewrite Hr.
  cbn [left width].
  change (Fin 0) with (int 0). rewrite sub_zero.
  now rewrite code_clamp.
Qed.

Lemma clamp_inside (v lo hi : number) :
  within v lo hi = true -> clamp v lo hi = v.
Proof.
  unfold within. intros H. apply andb_true_iff in H. destruct H as [H1 H2].
  assert (H : le lo hi = true) by exact (le_trans _ _ _ H1 H2).
  rewrite <- (code_clamp v lo hi H). unfold gt.
  now rewrite (le_not_lt _ _ H1), (le_not_lt _ _ H2).
Qed.

Lemma own_minimum (m hi : number) (l : Qc) :
  le m hi = true -> 0 <= l ->
  (if lt (sub m (Fin l)) m then m
   else if gt (sub m (Fin l)) hi then hi else sub m (Fin l)) = m.
Proof.
  intros H Hl. pose proof (le_not_lt _ _ H) as Hlt. unfold gt.
  destruct m as [ | | | q]; try discriminate H;
    destruct hi as [ | | | h]; try discriminate H; try reflexivity;
    cbn [sub neg add lt] in *;
    repeat match goal with
    | |- context [Qcltb ?a ?b] => destruct (Qcltb a b) eqn:?
    end; try reflexivity; qc_cases;
    try (exfalso; qc2q; lra);
    apply f_equal, Qc_is_canon; qc2q; lra.
Qed.

Lemma getPercentage_minSize (minSize : size) (l w : Qc) (dom : refs) :
  isString minSize && isPercentage (toStr minSize) = false ->
  numberOf minSize = Number minSize ->
  geometry l w dom -> 0 <= l ->
  le (minPixel minSize (Fin w)) (sub (Fin w) (minPixel minSize (Fin w))) = true ->
  getPercentage (splitPaneRef dom) minSize minSize
  = mul (div (Number minSize) (Fin w)) (int 100).
Proof.
  intros Hv Hnum [current [Hc Hr]] Hl Hroom. unfold getPercentage.
  rewrite Hv, Hc. unfold convertPixelToPercentage. rewrite Hr.
  cbn [left width]. rewrite Hnum.
  assert (Hm : minPixel minSize (Fin w) = Number minSize)
    by (unfold minPixel; now rewrite Hv).
  rewrite Hm in *. now rewrite own_minimum.
Qed.

(** C3, as amended: in the view of a call that does not throw,
    [aria-valuemax] is [100 - aria-valuemin] and [aria-valuetext] is
    [`${aria-valuenow}% of the width`].  For a percentage string
    [aria-valuemin] and [aria-valuenow] are the number of the string.  For
    a pixel value they are 0 as long as the container is not mounted.  With
    the container mounted with a width [w] that leaves room ([m <= w - m]
    for the minimum [m] in pixels), [aria-valuemin] is [minSize] as a
    percentage of [w] wherever the container's left edge is, from 0 on;
    with the left edge at 0, [aria-valuenow] is the pixel value of the
    left-pane size, clamped to [[m, w - m]], as a percentage of [w] - the
    left-pane size as a percentage when it is within the bounds. *)
Theorem aria_values (props : SplitPaneProps) (leftPaneSize : size)
  (dom : refs) (v : view) :
  let minSize := minSizeOf props in
  let percentage (s : size) := isString s && isPercentage (toStr s) in
  SplitPane props leftPaneSize dom = Ok v ->
  aria_valuemax v = sub (int 100) (aria_valuemin v)
  /\ aria_valuetext v = Fmt (aria_valuenow v) PercentOfTheWidth
  /\ (percentage minSize = true ->
        aria_valuemin v = parseFloat (replacePercent (toStr minSize)))
  /\ (percentage leftPaneSize = true ->
        aria_valuenow v = parseFloat (replacePercent (toStr leftPaneSize)))
  /\ (splitPaneRef dom = None ->
        (percentage minSize = false -> aria_valuemin v = int 0)
        /\ (percentage leftPaneSize = false -> aria_valuenow v = int 0))
  /\ (forall l w : Qc,
        let W := Fin w in
        let m := minPixel minSize W in
        geometry l w dom -> 0 <= l -> 0 < w -> le m (sub W m) = true ->
        percentage minSize = false -> numberOf minSize = Number minSize ->
        aria_valuemin v = asPercentage minSize W)
  /\ (forall w : Qc,
        let W := Fin w in
        let m := minPixel minSize W in
        geometry 0 w dom -> 0 < w -> le m (sub W m) = true ->
        percentage leftPaneSize = false ->
        aria_valuenow v
        = mul (div (clamp (numberOf leftPaneSize) m (sub W m)) W) (int 100)
        /\ (within (numberOf leftPaneSize) m (sub W m) = true ->
             numberOf leftPaneSize = Number leftPaneSize ->
             aria_valuenow v = asPercentage leftPaneSize W)).
Proof.
  intros minSize percentage H. apply SplitPane_view in H.
  destruct H as (_ & _ & _ & _ & Hmin & Hmax & Hnow & Htext).
  fold minSize in Hmin, Hmax, Hnow, Htext.
  rewrite Hmin, Hmax, Hnow, Htext.
  split; [ reflexivity | split; [ reflexivity | ] ].
  split; [ intros Hp; now apply getPercentage_percentage | ].
  split; [ intros Hp; now apply getPercentage_percentage | ].
  split; [ | split ].
  - intros Hnone. unfold ariaValueMin, ariaValueNow, getPercentage.
    rewrite Hnone. split; intros Hp; unfold percentage in Hp;
      now rewrite Hp.
  - intros l w W m Hg Hl Hw Hroom Hp Hnum. unfold percentage in Hp.
    unfold ariaValueMin, asPercentage. rewrite Hp.
    now apply (getPercentage_minSize minSize l w dom).
  - intros w W m Hg Hw Hroom Hp. unfold percentage in Hp. split.
    + unfold ariaValueNow.
      now rewrite (getPercentage_pixels minSize leftPaneSize w dom Hp Hg Hroom).
    + intros Hin Hnum. unfold ariaValueNow, asPercentage. rewrite Hp.
      rewrite (getPercentage_pixels minSize leftPaneSize w dom Hp Hg Hroom).
      fold W m. now rewrite (clamp_inside _ _ _ Hin), Hnum.
Qed.

End Aria.

Section AriaExamples.

Local Open Scope Qc_scope.

Lemma pixels_are_not_zero_percent (w : Qc) :
  0 < w -> asPercentage (Num (int 100)) (Fin w) <> int 0.
Proof.
  intros Hw. pose proof Hw as Hs. apply sign_Gt in Hs.
  change (asPercentage (Num (int 100)) (Fin w))
    with (mul (div (int 100) (Fin w)) (int 100)).
  unfold div, int. rewrite Hs. cbn [mul]. intros H. apply Fin_inj in H.
  assert (Hpos : 0 < Q2Qc (inject_Z 100) / w * Q2Qc (inject_Z 100)).
  { qc2q. assert (Hi : (0 < / this w)%Q) by now apply Qinv_lt_0_compat.
    lra. }
  rewrite H in Hpos. vm_compute in Hpos. discriminate Hpos.
Qed.

(** The default [minSize] in a nested pane: a container of width 1024
    whose left edge is at 512. *)
Lemma aria_values_witness :
  let props := twoChildren (Some (Num (int 256))) None in
  let nested := {| splitPaneRef := Some (container 512 1024);
                   dividerRef := Some (container 768 4) |} in
  let l := Q2Qc (inject_Z 512) in
  let w := Q2Qc (inject_Z 1024) in
  exists v,
    SplitPane props (Num (int 256)) nested = Ok v
    /\ (geometry l w nested /\ 0 <= l /\ 0 < w)
    /\ aria_valuemax v = sub (int 100) (aria_valuemin v)
    /\ aria_valuemin v = asPercentage (minSizeOf props) (Fin w)
    /\ asPercentage (minSizeOf props) (Fin w) = frac 625 64.
Proof.
  intros props nested l w. eexists. split; [ reflexivity | ].
  assert (Hg : geometry l w nested).
  { exists (container 512 1024). split; reflexivity. }
  assert (Hl : 0 <= l) by discriminate.
  split; [ repeat split; try assumption | ].
  match goal with
  | |- context [aria_valuemax ?v] =>
      pose proof (aria_values props (Num (int 256)) nested v eq_refl) as H
  end.
  destruct H as (Hmax & _ & _ & _ & _ & Hmin & _).
  split; [ exact Hmax | ]. split.
  - exact (Hmin l w Hg Hl eq_refl eq_refl eq_refl eq_refl).
  - js_compute.
Defined.

(** C3 as stated fails at the first render, where no ref is set: with the
    default props the panes get a [minWidth] of 100 pixels, yet
    [aria-valuemin] is 0 and [aria-valuemax] is 100; 100 pixels are 10% of
    a container of width 1000, and 0% of no container of positive width. *)
Lemma aria_values_first_render :
  let props := twoChildren None None in
  exists st v,
    mount props [] = Ok (st, v)
    /\ left_minWidth v = Fmt (int 100) Px
    /\ aria_valuemin v = int 0
    /\ aria_valuemax v = int 100
    /\ asPercentage (minSizeOf props) (int 1000) = int 10
    /\ aria_valuemin v <> asPercentage (minSizeOf props) (int 1000)
    /\ (forall w : Qc, 0 < w ->
          aria_valuemin v <> asPercentage (minSizeOf props) (Fin w)).
Proof.
  intros props. do 2 eexists. split; [ reflexivity | ].
  cbn [left_minWidth aria_valuemin aria_valuemax].
  do 4 (split; [ js_compute | ]).
  split.
  - intros H. vm_compute in H. discriminate H.
  - intros w Hw H. symmetry in H. revert H.
    now apply pixels_are_not_zero_percent.
Qed.

(** Where the container does not start at the left edge of the viewport
    the pixel sizes are read as pointer coordinates: in a container of
    width 1024 whose left edge is at 512, a left pane of 768 pixels is
    reported as 25% instead of 75%. *)
Lemma aria_valuenow_shifted :
  let dom := {| splitPaneRef := Some (container 512 1024);
                dividerRef := Some (container 1280 4) |} in
  ariaValueNow dom defaultMinSize (Num (int 768)) = int 25
  /\ asPercentage (Num (int 768)) (int 1024) = int 75.
Proof. cbv zeta. js_compute. Qed.

End AriaExamples.

(** ** What the validation accepts *)

Section Accepted.

Lemma validateSize_Ok (v : size) (label : string) :
  validateSize v label = Ok tt <-> acceptable (numberOf v) = true.
Proof.
  unfold validateSize, acceptable, isNegative.
  destruct (isNaN (numberOf v)); simpl; [ split; discriminate | ].
  destruct (lt (numberOf v) (int 0)); simpl; split; congruence.
Qed.

(** The props pass the validation exactly when there are two children,
    both sizes read as a number that is neither [NaN] nor negative, and
    [minSize] is not a percentage string that reads above 50 once its
    first ['%'] is removed. *)
Lemma validateProps_Ok (children : list element) (initialSize minSize : size) :
  validateProps children initialSize minSize = Ok tt
  <-> (List.length children = 2%nat
       /\ acceptable (numberOf initialSize) = true
       /\ acceptable (numberOf minSize) = true
       /\ isString minSize && isPercentage (toStr minSize)
          && gt (parseFloat (replacePercent (toStr minSize))) (int 50) = false).
Proof.
  unfold validateProps.
  rewrite <- (validateSize_Ok initialSize "initialSize").
  rewrite <- (validateSize_Ok minSize "minSize").
  destruct (Nat.eqb (List.length children) 2) eqn:E; cbn [negb].
  - apply Nat.eqb_eq in E.
    destruct (validateSize initialSize "initialSize") as [[] | ];
      [ | split; [ discriminate | intros (_ & H & _); discriminate H ] ].
    destruct (validateSize minSize "minSize") as [[] | ];
      [ | split; [ discriminate | intros (_ & _ & H & _); discriminate H ] ].
    destruct (isString minSize && isPercentage (toStr minSize)
              && gt (parseFloat (replacePercent (toStr minSize))) (int 50)).
    + split; [ discriminate | intros (_ & _ & _ & H); discriminate H ].
    + split; [ intros _; repeat split; exact E | reflexivity ].
  - apply Nat.eqb_neq in E. split; [ discriminate | ].
    intros (H & _). contradiction.
Qed.

(** What the tests of the component check: a text without a number, a
    negative number and a percentage above 50 are refused. *)
Lemma validation_refuses :
  validateProps [JSX 0; JSX 1] (Text "invalid") defaultMinSize
  = Throw "initialSize must be a number."
  /\ validateProps [JSX 0; JSX 1] defaultInitialSize (Text "invalid")
     = Throw "minSize must be a number."
  /\ validateProps [JSX 0; JSX 1] (Num (int (-100))) defaultMinSize
     = Throw "initialSize must be a positive number."
  /\ validateProps [JSX 0; JSX 1] defaultInitialSize (Num (int (-100)))
     = Throw "minSize must be a positive number."
  /\ validateProps [JSX 0; JSX 1] defaultInitialSize (Text "60%")
     = Throw "minSize must be less than or equal to 50%."
  /\ validateProps [JSX 0; JSX 1] defaultInitialSize (Text "50%") = Ok tt.
Proof. repeat split. Qed.

(** C4 fails on the code: [parseFloat] reads the number at the start of a
    text and ignores what follows, so ["100px"] and ["12abc"] pass the
    validation as 100 and 12.  The mount succeeds; the left pane then gets
    the [flexBasis] ["12abcpx"] and the [minWidth] ["100pxpx"], and
    [Number("100px")], which the clamping and the container's [minWidth]
    use, is [NaN]. *)
Theorem validation_accepts_trailing_text :
  parseFloat (Lit "100px") = int 100
  /\ parseFloat (Lit "12abc") = int 12
  /\ validateSize (Text "100px") "minSize" = Ok tt
  /\ validateSize (Text "12abc") "initialSize" = Ok tt
  /\ Number (Text "100px") = NaN
  /\ exists st v,
       mount (twoChildren (Some (Text "12abc")) (Some (Text "100px"))) []
       = Ok (st, v)
       /\ left_flexBasis v = Lit "12abcpx"
       /\ left_minWidth v = Lit "100pxpx"
       /\ container_minWidth v = Some NaN.
Proof.
  do 5 (split; [ js_compute | ]).
  do 2 eexists. split; [ reflexivity | ]. repeat split.
Qed.

End Accepted.

(** ** The tests of the repository *)

Section RepositoryTests.

(** "drags the divider to the left edge" and "drags the divider to the
    right edge", with [minSize = 50] in a container of width 1000: the left
    pane ends up 50 and 950 pixels wide, and no listener is left. *)
Example drags_to_the_edges :
  let minSize := Num (int 50) in
  let viewport := {| splitPaneRef := Some (container 0 1000);
                     dividerRef := Some (container 500 4) |} in
  let drag (clientX : number) :=
    run minSize
      [(viewport, onMouseDown);
       (viewport, onWindowEvent "mousemove" (MouseEvent clientX));
       (viewport, onWindowEvent "mouseup" (MouseEvent clientX))]
      {| leftPaneSize := Text "50%"; window := [] |} in
  leftPaneSize (drag (int (-1000))) = Pct (int 5)
  /\ toPixels (leftPaneSize (drag (int (-1000)))) (int 1000) = int 50
  /\ window (drag (int (-1000))) = []
  /\ leftPaneSize (drag (int 2000)) = Pct (int 95)
  /\ toPixels (leftPaneSize (drag (int 2000))) (int 1000) = int 950
  /\ window (drag (int 2000)) = [].
Proof. cbv zeta. js_compute. Qed.

(** "respects initial size" and "respects minimum size": the styles of the
    first render. *)
Example first_render_styles :
  (exists st v,
     mount (twoChildren (Some (Num (int 100))) None) [] = Ok (st, v)
     /\ left_flexBasis v = Fmt (int 100) Px)
  /\ (exists st v,
        mount (twoChildren (Some (Text "30%")) (Some (Text "30%"))) []
        = Ok (st, v)
        /\ left_flexBasis v = Lit "30%"
        /\ left_minWidth v = Lit "30%"
        /\ container_minWidth v = None)
  /\ (exists st v,
        mount (twoChildren None (Some (Text "200"))) [] = Ok (st, v)
        /\ left_minWidth v = Lit "200px"
        /\ right_minWidth v = Lit "200px"
        /\ container_minWidth v = Some (int 400)).
Proof.
  repeat split; do 2 eexists; (split; [ reflexivity | ]); js_compute.
Qed.

End RepositoryTests.

(** ** The drag state machine *)

Section DragStateMachine.

Lemma addEventListener_In (type : string) (cb : callback) (l : listener)
  (w : list listener) :
  In l w \/ l = (type, cb) -> In l (addEventListener type cb w).
Proof.
  unfold addEventListener. intros [H | ->].
  - destruct (existsb _ w); [ exact H | apply in_or_app; now left ].
  - destruct (existsb _ w) eqn:E.
    + now apply existsb_listener.
    + apply in_or_app. right. now left.
Qed.

Lemma addEventListener_present (type : string) (cb : callback)
  (w : list listener) :
  In (type, cb) w -> addEventListener type cb w = w.
Proof.
  intros H. unfold addEventListener.
  now rewrite (In_existsb (type, cb) w H).
Qed.

(** Pressing the divider again while its listeners are registered adds
    nothing: a second [mousedown] or [touchstart] leaves the state of the
    first, in every state. *)
Theorem pressing_twice_registers_once (minSize : size) (dom : refs) (st : state) :
  step minSize dom onMouseDown (step minSize dom onMouseDown st)
  = step minSize dom onMouseDown st
  /\ step minSize dom onTouchStart (step minSize dom onTouchStart st)
     = step minSize dom onTouchStart st.
Proof.
  split; cbn [step]; unfold handleMouseDown, handleTouchStart, onWindow;
    cbn [leftPaneSize window]; f_equal.
  - rewrite (addEventListener_present "mousemove").
    + apply addEventListener_present, addEventListener_In. now right.
    + apply addEventListener_In. left. apply addEventListener_In. now right.
  - rewrite (addEventListener_present "touchmove").
    + apply addEventListener_present, addEventListener_In. now right.
    + apply addEventListener_In. left. apply addEventListener_In. now right.
Qed.

(** A context menu on the divider ends any drag: in every state that a run
    reaches, it takes the listeners of the instance off [window] and leaves
    the left-pane size as it is. *)
Theorem contextmenu_releases (minSize initial : size) (w0 : list listener)
  (trace : list (refs * action)) (dom : refs) :
  foreign w0 = true ->
  let st := run minSize trace {| leftPaneSize := initial; window := w0 |} in
  step minSize dom onContextMenu st
  = {| leftPaneSize := leftPaneSize st; window := w0 |}.
Proof.
  intros Hf st.
  assert (Hw : window (removeEventListeners st) = w0).
  { apply registered_remove; [ exact Hf | ].
    apply registered_run; [ exact Hf | apply registered_initial ]. }
  cbn [step]. rewrite <- Hw. reflexivity.
Qed.

Lemma contextmenu_releases_witness :
  let dom := {| splitPaneRef := Some (container 0 1000);
                dividerRef := Some (container 500 4) |} in
  let trace := [(dom, onTouchStart);
                (dom, onWindowEvent "touchmove" (TouchEvent [int 300]))] in
  let st := run defaultMinSize trace
              {| leftPaneSize := Text "50%"; window := [] |} in
  foreign [] = true
  /\ window st = [("touchmove", Fn_handleTouchMove);
                  ("touchend", Fn_removeEventListeners)]
  /\ step defaultMinSize dom onContextMenu st
     = {| leftPaneSize := leftPaneSize st; window := [] |}.
Proof.
  intros dom trace st. split; [ reflexivity | split; [ reflexivity | ] ].
  exact (contextmenu_releases defaultMinSize (Text "50%") [] trace dom
           eq_refl).
Defined.

(** Along every run the listeners that others have on [window] stay where
    they are, in their order; behind them the instance has some of its four
    listeners, each at most once, so never more than four. *)
Theorem run_keeps_other_listeners (minSize initial : size) (w0 : list listener)
  (trace : list (refs * action)) :
  foreign w0 = true ->
  let st := run minSize trace {| leftPaneSize := initial; window := w0 |} in
  exists mine,
    window st = w0 ++ mine
    /\ NoDup mine
    /\ incl mine instanceListeners
    /\ (List.length (window st) <= List.length w0 + 4)%nat.
Proof.
  intros Hf st.
  destruct (registered_run minSize w0 trace
              {| leftPaneSize := initial; window := w0 |} Hf
              (registered_initial w0)) as [mine [E [Hn Hi]]].
  exists mine. fold st in E. repeat split; try assumption.
  rewrite E, length_app. apply Nat.add_le_mono_l.
  exact (NoDup_incl_length Hn Hi).
Qed.

Lemma run_keeps_other_listeners_witness :
  let dom := {| splitPaneRef := Some (container 0 1000);
                dividerRef := Some (container 500 4) |} in
  let w0 := [("resize", Fn_other 1); ("mousemove", Fn_other 2)] in
  let trace := [(dom, onMouseDown); (dom, onTouchStart); (dom, onMouseDown)] in
  let st := run defaultMinSize trace
              {| leftPaneSize := Text "50%"; window := w0 |} in
  foreign w0 = true
  /\ List.length (window st) = 6%nat
  /\ exists mine,
       window st = w0 ++ mine
       /\ NoDup mine
       /\ incl mine instanceListeners
       /\ (List.length (window st) <= List.length w0 + 4)%nat.
Proof.
  intros dom w0 trace st. split; [ reflexivity | split; [ reflexivity | ] ].
  exact (run_keeps_other_listeners defaultMinSize (Text "50%") w0 trace
           eq_refl).
Defined.

End DragStateMachine.

Section DragMoves.

Lemma mouse_drag_witness :
  let dom := {| splitPaneRef := Some (container 0 1000);
                dividerRef := Some (container 500 4) |} in
  let st := {| leftPaneSize := Text "50%";
               window := [("resize", Fn_other 1)] |} in
  let dragging := step defaultMinSize dom onMouseDown st in
  foreign (window st) = true
  /\ step defaultMinSize dom (onWindowEvent "mousemove" (MouseEvent (int 400)))
       dragging
     = handleMove dom defaultMinSize (int 400) dragging
  /\ step defaultMinSize dom (onWindowEvent "mouseup" (MouseEvent (int 400)))
       dragging = st.
Proof.
  intros dom st dragging. split; [ reflexivity | ].
  exact (mouse_drag defaultMinSize dom (int 400) (MouseEvent (int 400)) st
           eq_refl).
Defined.

Lemma touch_drag_witness :
  let dom := {| splitPaneRef := Some (container 0 1000);
                dividerRef := Some (container 500 4) |} in
  let st := {| leftPaneSize := Text "50%"; window := [] |} in
  let dragging := step defaultMinSize dom onTouchStart st in
  foreign (window st) = true
  /\ step defaultMinSize dom
       (onWindowEvent "touchmove" (TouchEvent [int 400; int 700])) dragging
     = handleMove dom defaultMinSize (int 400) dragging
  /\ step defaultMinSize dom (onWindowEvent "touchend" (TouchEvent []))
       dragging = st.
Proof.
  intros dom st dragging. split; [ reflexivity | ].
  exact (touch_drag defaultMinSize dom (int 400) [int 700] (TouchEvent []) st
           eq_refl).
Defined.

Lemma mousemove_registered (minSize : size) (dom : refs) (x : number)
  (w0 : list listener) (st : state) :
  foreign w0 = true ->
  window st = w0 ++ [("mousemove", Fn_handleMouseMove);
                     ("mouseup", Fn_removeEventListeners)] ->
  step minSize dom (onWindowEvent "mousemove" (MouseEvent x)) st
  = handleMove dom minSize x st.
Proof.
  intros Hf Hw.
  assert (Hmm : existsb (listener_eqb ("mousemove", Fn_handleMouseMove))
                  (window st) = true).
  { apply In_existsb. rewrite Hw. apply in_or_app. right. simpl. auto. }
  cbn [step]. unfold dispatch. rewrite Hw at 1.
  rewrite fold_left_app, (dispatch_others _ _ _ _ _ _ Hf).
  cbn [fold_left fst snd].
  change (String.eqb "mousemove" "mousemove") with true.
  change (String.eqb "mouseup" "mousemove") with false.
  rewrite Hmm. reflexivity.
Qed.

(** During a mouse drag the size after a [mousemove] does not depend on
    the moves before it: two moves in a row leave the state of the second
    one alone. *)
Theorem last_mousemove_wins (minSize : size) (dom1 dom2 : refs)
  (x1 x2 : number) (st : state) :
  foreign (window st) = true ->
  let dragging := step minSize dom1 onMouseDown st in
  step minSize dom2 (onWindowEvent "mousemove" (MouseEvent x2))
    (step minSize dom1 (onWindowEvent "mousemove" (MouseEvent x1)) dragging)
  = step minSize dom2 (onWindowEvent "mousemove" (MouseEvent x2)) dragging.
Proof.
  intros Hf dragging.
  assert (Hw : window dragging
               = window st ++ [("mousemove", Fn_handleMouseMove);
                               ("mouseup", Fn_removeEventListeners)])
    by now apply handleMouseDown_window.
  rewrite (mousemove_registered minSize dom1 x1 (window st) dragging Hf Hw).
  rewrite (mousemove_registered minSize dom2 x2 (window st) dragging Hf Hw).
  now rewrite (mousemove_registered minSize dom2 x2 (window st) _ Hf).
Qed.

Lemma last_mousemove_wins_witness :
  let dom := {| splitPaneRef := Some (container 0 1000);
                dividerRef := Some (container 500 4) |} in
  let st := {| leftPaneSize := Text "50%"; window := [] |} in
  let dragging := step defaultMinSize dom onMouseDown st in
  foreign (window st) = true
  /\ step defaultMinSize dom (onWindowEvent "mousemove" (MouseEvent (int 700)))
       (step defaultMinSize dom
          (onWindowEvent "mousemove" (MouseEvent (int 200))) dragging)
     = step defaultMinSize dom
         (onWindowEvent "mousemove" (MouseEvent (int 700))) dragging.
Proof.
  intros dom st dragging. split; [ reflexivity | ].
  exact (last_mousemove_wins defaultMinSize dom dom (int 200) (int 700) st
           eq_refl).
Defined.

(** A run without a key and without a [mousemove] or [touchmove] on
    [window] - presses, releases, context menus, other events - never
    changes the left-pane size. *)
Theorem size_changes_only_by_moves (minSize initial : size)
  (w0 : list listener) (trace : list (refs * action)) :
  foreign w0 = true ->
  forallb (fun da => negb (moving (snd da))) trace = true ->
  leftPaneSize (run minSize trace {| leftPaneSize := initial; window := w0 |})
  = initial.
Proof.
  intros Hf.
  assert (H : forall st,
             registered w0 (window st) ->
             forallb (fun da => negb (moving (snd da))) trace = true ->
             leftPaneSize (run minSize trace st) = leftPaneSize st).
  { induction trace as [ | [dom a] trace IH]; intros st Hr Hq;
      [ reflexivity | ].
    simpl in Hq. apply andb_true_iff in Hq. destruct Hq as [Ha Hq].
    apply negb_true_iff in Ha. simpl.
    rewrite IH; [ | now apply registered_step | exact Hq ].
    destruct a; try reflexivity; try discriminate Ha.
    cbn [moving] in Ha. apply orb_false_iff in Ha. destruct Ha as [Hm Ht].
    cbn [step].
    assert (Hd : registered w0 (window (dispatch dom minSize type event st))
                 /\ leftPaneSize (dispatch dom minSize type event st)
                    = leftPaneSize st); [ | apply Hd ].
    apply (dispatch_ind minSize
             (fun s => registered w0 (window s)
                       /\ leftPaneSize s = leftPaneSize st));
      [ now split | ].
    intros l acc Hty Hin [Hacc Hsize]. split.
    - now apply registered_call.
    - rewrite <- Hsize.
      destruct (registered_In w0 _ l Hf Hacc Hin) as [Ho | Hi].
      + destruct (snd l); try discriminate Ho. reflexivity.
      + simpl in Hi.
        destruct Hi as [<- | [<- | [<- | [<- | []]]]]; simpl in Hty;
          subst type; try discriminate Hm; try discriminate Ht;
          reflexivity. }
  intros Hq.
  apply (H {| leftPaneSize := initial; window := w0 |}
           (registered_initial w0) Hq).
Qed.

Lemma size_changes_only_by_moves_witness :
  let dom := {| splitPaneRef := Some (container 0 1000);
                dividerRef := Some (container 500 4) |} in
  let trace := [(dom, onMouseDown);
                (dom, onWindowEvent "mouseup" (MouseEvent (int 900)));
                (dom, onTouchStart); (dom, onContextMenu)] in
  (foreign [] = true
   /\ forallb (fun da => negb (moving (snd da))) trace = true)
  /\ leftPaneSize
       (run defaultMinSize trace
          {| leftPaneSize := Num (int 300); window := [] |})
     = Num (int 300).
Proof.
  intros dom trace. split; [ split; reflexivity | ].
  exact (size_changes_only_by_moves defaultMinSize (Num (int 300)) [] trace
           eq_refl eq_refl).
Defined.

End DragMoves.

(** ** The conversion as a function of the pointer *)

Section ConversionOrder.

Local Open Scope Qc_scope.

Lemma le_refl (a : number) : isNaN a = false -> le a a = true.
Proof.
  destruct a as [ | | | q]; simpl; try reflexivity; try discriminate.
  intros _. apply negb_true_iff, Qcltb_false. qc2q. lra.
Qed.

Lemma sub_mono (a b : number) (l : Qc) :
  le a b = true -> le (sub a (Fin l)) (sub b (Fin l)) = true.
Proof.
  destruct a as [ | | | a], b as [ | | | b]; simpl; try congruence.
  intros H. apply negb_true_iff in H. qc_cases.
  apply negb_true_iff, Qcltb_false. qc2q. lra.
Qed.

Lemma max_mono (a b c : number) :
  le a b = true -> isNaN c = false -> le (Js.max a c) (Js.max b c) = true.
Proof.
  destruct a as [ | | | a], b as [ | | | b], c as [ | | | c]; simpl;
    try congruence;
    repeat match goal with
    | |- context [Qcltb ?x ?y] => destruct (Qcltb x y) eqn:?; simpl
    end; try congruence;
    intros; exfalso; qc_cases; qc2q; lra.
Qed.

Lemma min_mono (a b c : number) :
  le a b = true -> isNaN c = false -> le (Js.min a c) (Js.min b c) = true.
Proof.
  destruct a as [ | | | a], b as [ | | | b], c as [ | | | c]; simpl;
    try congruence;
    repeat match goal with
    | |- context [Qcltb ?x ?y] => destruct (Qcltb x y) eqn:?; simpl
    end; try congruence;
    intros; exfalso; qc_cases; qc2q; lra.
Qed.

Lemma scale_mono (a b : number) (w : Qc) :
  0 < w -> le a b = true ->
  le (mul (div a (Fin w)) (int 100)) (mul (div b (Fin w)) (int 100)) = true.
Proof.
  intros Hw H. pose proof Hw as Hs. apply sign_Gt in Hs.
  destruct a as [ | | | a], b as [ | | | b]; try discriminate H;
    unfold div; rewrite ?Hs; try reflexivity.
  cbn [mul int le]. cbn [le] in H. apply negb_true_iff in H. qc_cases.
  apply negb_true_iff, Qcltb_false. qc2q.
  assert (Hi : (0 < / this w)%Q) by now apply Qinv_lt_0_compat.
  assert (Hp : (0 <= (this b - this a) * / this w)%Q)
    by (apply Qmult_le_0_compat; lra).
  lra.
Qed.

End ConversionOrder.

Section ConversionTheorems.

Local Open Scope Qc_scope.

Lemma convert_clamped (minSize : size) (l w : Qc) (dom : refs) (x : number) :
  geometry l w dom ->
  le (minPixel minSize (Fin w)) (sub (Fin w) (minPixel minSize (Fin w))) = true ->
  convertPixelToPercentage (splitPaneRef dom) minSize (Num x)
  = mul (div (clamp (sub x (Fin l)) (minPixel minSize (Fin w))
                (sub (Fin w) (minPixel minSize (Fin w)))) (Fin w)) (int 100).
Proof.
  intros [current [Hc Hr]] Hroom. rewrite Hc.
  unfold convertPixelToPercentage. rewrite Hr. cbn [left width numberOf].
  now rewrite code_clamp.
Qed.

(** The conversion is monotone in the pointer coordinate: in a container
    of positive width that leaves room between the bounds, a pointer
    further to the right never gives a smaller percentage. *)
Theorem conversion_monotone (minSize : size) (l w : Qc) (dom : refs)
  (x1 x2 : number) :
  geometry l w dom -> 0 < w ->
  le (minPixel minSize (Fin w)) (sub (Fin w) (minPixel minSize (Fin w))) = true ->
  le x1 x2 = true ->
  le (convertPixelToPercentage (splitPaneRef dom) minSize (Num x1))
     (convertPixelToPercentage (splitPaneRef dom) minSize (Num x2)) = true.
Proof.
  intros Hg Hw Hroom Hx.
  rewrite !(convert_clamped minSize l w dom) by assumption.
  destruct (le_not_NaN _ _ Hroom) as [Hlo Hhi].
  apply scale_mono; [ exact Hw | ]. unfold clamp.
  apply min_mono; [ | exact Hhi ].
  apply max_mono; [ | exact Hlo ].
  now apply sub_mono.
Qed.

Lemma conversion_monotone_witness :
  let l := Q2Qc (inject_Z 0) in
  let w := Q2Qc (inject_Z 1000) in
  let dom := {| splitPaneRef := Some (container 0 1000);
                dividerRef := Some (container 500 4) |} in
  (geometry l w dom /\ 0 < w /\ le (int 300) (int 2000) = true)
  /\ le (convertPixelToPercentage (splitPaneRef dom) defaultMinSize
           (Num (int 300)))
        (convertPixelToPercentage (splitPaneRef dom) defaultMinSize
           (Num (int 2000))) = true.
Proof.
  intros l w dom.
  assert (Hg : geometry l w dom).
  { exists (container 0 1000). split; reflexivity. }
  split; [ repeat split; try reflexivity; exact Hg | ].
  apply (conversion_monotone defaultMinSize l w dom); try reflexivity.
  exact Hg.
Defined.

Lemma scale_zero (w : Qc) :
  0 < w -> mul (div (int 0) (Fin w)) (int 100) = int 0.
Proof.
  intros Hw. assert (Hn : w <> 0) by (intros ->; discriminate Hw).
  apply sign_Gt in Hw. unfold div, int. rewrite Hw. cbn [mul].
  apply f_equal, Qc_is_canon. apply Qc_nonzero in Hn. qc2q. field. exact Hn.
Qed.

Lemma scale_full (w : Qc) :
  0 < w -> mul (div (Fin w) (Fin w)) (int 100) = int 100.
Proof.
  intros Hw. assert (Hn : w <> 0) by (intros ->; discriminate Hw).
  apply sign_Gt in Hw. unfold div, int. rewrite Hw. cbn [mul].
  apply f_equal, Qc_is_canon. apply Qc_nonzero in Hn. qc2q. field. exact Hn.
Qed.

Lemma upper_bound_below_width (m : number) (w : Qc) :
  le (int 0) m = true -> le m (sub (Fin w) m) = true ->
  le (sub (Fin w) m) (Fin w) = true.
Proof.
  destruct m as [ | | | m]; simpl; try congruence.
  intros H0 _. apply negb_true_iff in H0. qc_cases.
  apply negb_true_iff, Qcltb_false. qc2q. lra.
Qed.

(** With a minimum that is not negative and leaves room, the conversion
    of every pointer coordinate that is a number lies between the minimum
    and the maximum as percentages of the width, and so between 0 and
    100. *)
Theorem conversion_between_0_and_100 (minSize : size) (l w : Qc)
  (dom : refs) (x : number) :
  let W := Fin w in
  let m := minPixel minSize W in
  let p := convertPixelToPercentage (splitPaneRef dom) minSize (Num x) in
  geometry l w dom -> 0 < w ->
  le (int 0) m = true -> le m (sub W m) = true -> isNaN x = false ->
  within p (mul (div m W) (int 100)) (mul (div (sub W m) W) (int 100)) = true
  /\ within p (int 0) (int 100) = true.
Proof.
  intros W m p Hg Hw H0 Hroom Hx.
  assert (Hp : p = mul (div (clamp (sub x (Fin l)) m (sub W m)) W) (int 100))
    by now apply convert_clamped.
  destruct (clamp_within (sub x (Fin l)) m (sub W m) Hroom
              (sub_not_NaN x l Hx)) as [Hin _].
  rewrite (code_clamp _ _ _ Hroom) in Hin.
  unfold within in Hin. apply andb_true_iff in Hin. destruct Hin as [H1 H2].
  assert (L1 : le (mul (div m W) (int 100)) p = true)
    by (rewrite Hp; now apply scale_mono).
  assert (L2 : le p (mul (div (sub W m) W) (int 100)) = true)
    by (rewrite Hp; now apply scale_mono).
  split; unfold within; apply andb_true_iff; split; try assumption.
  - rewrite <- (scale_zero w Hw).
    apply (le_trans _ _ _ (scale_mono _ _ w Hw H0) L1).
  - rewrite <- (scale_full w Hw).
    apply (le_trans _ _ _ L2).
    apply scale_mono; [ exact Hw | ].
    now apply upper_bound_below_width.
Qed.

Lemma conversion_between_0_and_100_witness :
  let l := Q2Qc (inject_Z 0) in
  let w := Q2Qc (inject_Z 1000) in
  let dom := {| splitPaneRef := Some (container 0 1000);
                dividerRef := Some (container 500 4) |} in
  (geometry l w dom /\ 0 < w)
  /\ within (convertPixelToPercentage (splitPaneRef dom) defaultMinSize
               (Num (int 5000))) (int 0) (int 100) = true.
Proof.
  intros l w dom.
  assert (Hg : geometry l w dom).
  { exists (container 0 1000). split; reflexivity. }
  split; [ split; [ exact Hg | reflexivity ] | ].
  apply (conversion_between_0_and_100 defaultMinSize l w dom (int 5000));
    try reflexivity.
  exact Hg.
Defined.

End ConversionTheorems.

(** ** Room between the bounds *)

Section Room.

Local Open Scope Qc_scope.

(** The [minWidth] that the component gives its container is enough for
    the clamping: for a pixel minimum [mq >= 0] and a divider [d >= 0]
    pixels wide it is [mq * 2 + d], and in every container at least that
    wide the minimum is at most the maximum, [m <= W - m]. *)
Theorem container_min_width_leaves_room (dom : refs) (minSize : size)
  (mq d : Qc) :
  isMinSizeInPercentage minSize = false ->
  Number minSize = Fin mq -> 0 <= mq ->
  dividerWidth dom = Fin d -> 0 <= d ->
  containerMinWidth dom minSize = Some (Fin (mq * Q2Qc (inject_Z 2) + d))
  /\ forall w : Qc,
       mq * Q2Qc (inject_Z 2) + d <= w ->
       le (minPixel minSize (Fin w))
          (sub (Fin w) (minPixel minSize (Fin w))) = true.
Proof.
  intros Hp Hn Hm Hd H0. split.
  - unfold containerMinWidth. rewrite Hp, Hn. do 2 f_equal.
    unfold dividerWidth in Hd. destruct (dividerRef dom) as [current | ].
    + cbn [option_map]. rewrite Hd.
      rewrite or_else_zero by reflexivity. reflexivity.
    + cbn [option_map or_else]. rewrite Hd. reflexivity.
  - intros w Hw. unfold minPixel. unfold isMinSizeInPercentage in Hp.
    rewrite Hp, Hn. cbn. apply negb_true_iff, Qcltb_false. qc2q. lra.
Qed.

Lemma container_min_width_leaves_room_witness :
  let dom := {| splitPaneRef := Some (container 0 204);
                dividerRef := Some (container 100 4) |} in
  let mq := Q2Qc (inject_Z 100) in
  let d := Q2Qc (inject_Z 4) in
  let w := Q2Qc (inject_Z 204) in
  (Number defaultMinSize = Fin mq /\ 0 <= mq
   /\ dividerWidth dom = Fin d /\ 0 <= d
   /\ mq * Q2Qc (inject_Z 2) + d <= w)
  /\ le (minPixel defaultMinSize (Fin w))
        (sub (Fin w) (minPixel defaultMinSize (Fin w))) = true.
Proof.
  intros dom mq d w.
  assert (H1 : 0 <= mq) by discriminate.
  assert (H2 : 0 <= d) by discriminate.
  assert (H3 : mq * Q2Qc (inject_Z 2) + d <= w) by discriminate.
  split; [ repeat split; try reflexivity; assumption | ].
  destruct (container_min_width_leaves_room dom defaultMinSize mq d
              eq_refl eq_refl H1 eq_refl H2) as [_ H].
  exact (H w H3).
Defined.

Lemma validateProps_percentage (children : list element)
  (initialSize minSize : size) :
  validateProps children initialSize minSize = Ok tt ->
  isMinSizeInPercentage minSize = true ->
  gt (parseFloat (replacePercent (toStr minSize))) (int 50) = false.
Proof.
  unfold validateProps, isMinSizeInPercentage. intros H Hp.
  destruct (negb _); [ discriminate H | ].
  destruct (validateSize initialSize _); [ | discriminate H ].
  destruct (validateSize minSize _); [ | discriminate H ].
  rewrite Hp in H. cbn [andb] in H.
  destruct (gt _ _); [ discriminate H | reflexivity ].
Qed.

(** A percentage minimum that passed the validation and is not negative
    leaves room in every container of a width that is not negative: the
    minimum in pixels is at most the maximum. *)
Theorem validated_percentage_leaves_room (children : list element)
  (initialSize minSize : size) (p w : Qc) :
  validateProps children initialSize minSize = Ok tt ->
  isMinSizeInPercentage minSize = true ->
  parseFloat (replacePercent (toStr minSize)) = Fin p ->
  0 <= p -> 0 <= w ->
  le (minPixel minSize (Fin w)) (sub (Fin w) (minPixel minSize (Fin w))) = true.
Proof.
  intros Hv Hp Hparse H0 Hw.
  pose proof (validateProps_percentage _ _ _ Hv Hp) as H50.
  rewrite Hparse in H50. unfold gt in H50. cbn [lt int] in H50.
  apply Qcltb_false in H50.
  unfold minPixel. unfold isMinSizeInPercentage in Hp. rewrite Hp, Hparse.
  now apply percentage_room.
Qed.

Lemma validated_percentage_leaves_room_witness :
  let p := Q2Qc (inject_Z 30) in
  let w := Q2Qc (inject_Z 640) in
  (validateProps [JSX 0; JSX 1] defaultInitialSize (Text "30%") = Ok tt
   /\ parseFloat (replacePercent (toStr (Text "30%"))) = Fin p
   /\ 0 <= p /\ 0 <= w)
  /\ le (minPixel (Text "30%") (Fin w))
        (sub (Fin w) (minPixel (Text "30%") (Fin w))) = true.
Proof.
  intros p w.
  assert (Hparse : parseFloat (replacePercent (toStr (Text "30%"))) = Fin p)
    by js_compute.
  assert (H1 : 0 <= p) by discriminate.
  assert (H2 : 0 <= w) by discriminate.
  split; [ repeat split; try reflexivity; assumption | ].
  exact (validated_percentage_leaves_room [JSX 0; JSX 1] defaultInitialSize
           (Text "30%") p w eq_refl eq_refl Hparse H1 H2).
Defined.

End Room.

(** ** Validation of numbers and recognition of percentages *)

Section ValidationExtras.

Local Open Scope Qc_scope.

Lemma validateProps_Ok_witness :
  acceptable (numberOf (Text "25%")) = true
  /\ acceptable (numberOf (Num (int 0))) = true
  /\ validateProps [JSX 0; JSX 1] (Text "25%") (Num (int 0)) = Ok tt.
Proof.
  split; [ reflexivity | split; [ reflexivity | ] ].
  apply (proj2 (validateProps_Ok [JSX 0; JSX 1] (Text "25%") (Num (int 0)))).
  repeat split.
Defined.

(** Sizes given as finite numbers pass the validation exactly when there
    are two children and neither number is negative: zero passes, and a
    pixel minimum has no upper limit. *)
Theorem validateProps_numbers (children : list element) (i m : Qc) :
  validateProps children (Num (Fin i)) (Num (Fin m)) = Ok tt
  <-> (List.length children = 2%nat /\ 0 <= i /\ 0 <= m).
Proof.
  unfold validateProps.
  assert (Hv : forall (q : Qc) (label : string),
             validateSize (Num (Fin q)) label = Ok tt <-> 0 <= q).
  { intros q label. rewrite validateSize_Ok. unfold acceptable.
    cbn [numberOf isNaN negb andb lt int].
    rewrite negb_true_iff, Qcltb_false. reflexivity. }
  destruct (Nat.eqb (List.length children) 2) eqn:E; cbn [negb].
  - apply Nat.eqb_eq in E.
    pose proof (Hv i "initialSize"%string) as Hi.
    pose proof (Hv m "minSize"%string) as Hm.
    destruct (validateSize (Num (Fin i)) "initialSize") as [[] | ].
    + destruct (validateSize (Num (Fin m)) "minSize") as [[] | ].
      * cbn. split; [ intros _ | reflexivity ].
        repeat split; [ exact E | now apply Hi | now apply Hm ].
      * split; [ discriminate | ].
        intros (_ & _ & H). apply Hm in H. discriminate H.
    + split; [ discriminate | ].
      intros (_ & H & _). apply Hi in H. discriminate H.
  - apply Nat.eqb_neq in E. split; [ discriminate | ].
    intros (H & _). contradiction.
Qed.

Lemma validateProps_numbers_witness :
  (List.length [JSX 0; JSX 1] = 2%nat
   /\ 0 <= Q2Qc (inject_Z 0) /\ 0 <= Q2Qc (inject_Z 100000))
  /\ validateProps [JSX 0; JSX 1] (Num (int 0)) (Num (int 100000)) = Ok tt.
Proof.
  assert (H : List.length [JSX 0; JSX 1] = 2%nat
              /\ 0 <= Q2Qc (inject_Z 0) /\ 0 <= Q2Qc (inject_Z 100000))
    by (repeat split; discriminate).
  split; [ exact H | ].
  exact (proj2 (validateProps_numbers [JSX 0; JSX 1] (Q2Qc (inject_Z 0))
                  (Q2Qc (inject_Z 100000))) H).
Defined.

Local Open Scope string_scope.

Lemma trimEnd_whitespace (ws : string) :
  forallb isWhiteSpace (list_ascii_of_string ws) = true ->
  trimEnd ws = "".
Proof.
  induction ws as [ | c ws IH]; [ reflexivity | ].
  simpl. intros H. apply andb_true_iff in H. destruct H as [Hc Hws].
  now rewrite (IH Hws), Hc.
Qed.

Lemma trimEnd_last (s : string) (c : ascii) (ws : string) :
  isWhiteSpace c = false ->
  forallb isWhiteSpace (list_ascii_of_string ws) = true ->
  trimEnd (s ++ String c ws) = s ++ String c "".
Proof.
  intros Hc Hws. induction s as [ | d s IH].
  - simpl. now rewrite (trimEnd_whitespace ws Hws), Hc.
  - simpl. rewrite IH. now destruct s.
Qed.

Lemma trimStart_last (t : string) (c : ascii) (ws : string) :
  isWhiteSpace c = false ->
  exists s, trimStart (t ++ String c ws) = s ++ String c ws.
Proof.
  intros Hc. induction t as [ | d t IH].
  - exists "". simpl. now rewrite Hc.
  - simpl. destruct (isWhiteSpace d).
    + exact IH.
    + now exists (String d t).
Qed.

Lemma endsWith_last (s : string) (c : ascii) :
  endsWith_text (s ++ String c "") "%" = Ascii.eqb c "%".
Proof.
  induction s as [ | d s IH].
  - simpl. destruct (Ascii.eqb c "%"); reflexivity.
  - cbn [append endsWith_text]. rewrite IH.
    cbn [String.eqb].
    destruct (Ascii.eqb d "%"); [ | reflexivity ].
    destruct s; reflexivity.
Qed.

(** [isPercentage] looks at the last character that is not white space: a
    text is a percentage exactly when that character is ['%'], whatever
    stands before it and however much white space follows; a text of
    white space only is not a percentage. *)
Theorem isPercentage_last_character (t : string) (c : ascii) (ws : string) :
  isWhiteSpace c = false ->
  forallb isWhiteSpace (list_ascii_of_string ws) = true ->
  isPercentage (Lit (t ++ String c ws)) = Ascii.eqb c "%"
  /\ isPercentage (Lit ws) = false.
Proof.
  intros Hc Hws. unfold isPercentage, trim, endsWithPercent, trim_text.
  split.
  - destruct (trimStart_last t c ws Hc) as [s ->].
    rewrite (trimEnd_last s c ws Hc Hws). apply endsWith_last.
  - assert (E : trimEnd (trimStart ws) = "").
    { clear Hc. induction ws as [ | d ws IH]; [ reflexivity | ].
      simpl in Hws. apply andb_true_iff in Hws. destruct Hws as [Hd Hws].
      simpl. rewrite Hd. now apply IH. }
    now rewrite E.
Qed.

Lemma isPercentage_last_character_witness :
  (isWhiteSpace "%" = false
   /\ forallb isWhiteSpace (list_ascii_of_string "  ") = true)
  /\ isPercentage (Lit (" 12.5" ++ String "%" "  ")) = true.
Proof.
  split; [ split; reflexivity | ].
  exact (proj1 (isPercentage_last_character " 12.5" "%" "  " eq_refl eq_refl)).
Defined.

End ValidationExtras.

(** ** Releasing *)

Section Release.

Variable minSize : size.
Variable w0 : list listener.
Hypothesis others : foreign w0 = true.

Lemma own_registered_type (type : string) (w : list listener) :
  registered w0 w -> In (type, Fn_removeEventListeners) w ->
  type = "mouseup" \/ type = "touchend".
Proof.
  intros Hr Hin.
  destruct (registered_In w0 w _ others Hr Hin) as [Ho | Hi];
    [ discriminate Ho | ].
  simpl in Hi.
  destruct Hi as [H | [H | [H | [H | []]]]]; inversion H; auto.
Qed.

Lemma release_fold (dom : refs) (type : string) (event : Event)
  (ws : list listener) (acc : state) :
  registered w0 (window acc) ->
  window acc = w0
  \/ (In (type, Fn_removeEventListeners) (window acc)
      /\ In (type, Fn_removeEventListeners) ws) ->
  let r :=
    fold_left
      (fun acc l =>
         if String.eqb (fst l) type && existsb (listener_eqb l) (window acc)
         then call dom minSize (snd l) event acc
         else acc) ws acc in
  window r = w0 /\ leftPaneSize r = leftPaneSize acc.
Proof.
  revert acc. induction ws as [ | l ws IH]; intros acc Hr Hcase; simpl.
  - destruct Hcase as [E | [_ []]]. now split.
  - set (acc' := if String.eqb (fst l) type
                    && existsb (listener_eqb l) (window acc)
                 then call dom minSize (snd l) event acc else acc).
    assert (H : registered w0 (window acc')
                /\ leftPaneSize acc' = leftPaneSize acc
                /\ (window acc' = w0
                    \/ (In (type, Fn_removeEventListeners) (window acc')
                        /\ In (type, Fn_removeEventListeners) ws))).
    { unfold acc'.
      destruct (String.eqb (fst l) type
                && existsb (listener_eqb l) (window acc)) eqn:Ec.
      - apply andb_true_iff in Ec. destruct Ec as [Et El].
        apply String.eqb_eq in Et. apply existsb_listener in El.
        destruct (registered_In w0 _ l others Hr El) as [Ho | Hi].
        + destruct l as [ty cb]. cbn [fst snd] in *.
          destruct cb; try discriminate Ho. cbn [call].
          repeat split; try assumption.
          destruct Hcase as [E | [H1 [H2 | H2]]]; auto. discriminate H2.
        + destruct Hcase as [E | [H1 H2]].
          * rewrite E in El.
            pose proof (foreign_In _ _ others El) as Ho.
            simpl in Hi.
            destruct Hi as [<- | [<- | [<- | [<- | []]]]]; discriminate Ho.
          * destruct (own_registered_type type _ Hr H1) as [-> | ->];
              simpl in Hi;
              destruct Hi as [<- | [<- | [<- | [<- | []]]]];
              try discriminate Et; cbn [snd call];
              (split; [ rewrite (registered_remove w0 acc others Hr);
                        apply registered_initial
                      | split; [ reflexivity | left;
                        apply (registered_remove w0 acc others Hr) ] ]).
      - repeat split; try assumption.
        destruct Hcase as [E | [H1 [H2 | H2]]]; auto.
        subst l. cbn [fst] in Ec. rewrite String.eqb_refl in Ec.
        rewrite (In_existsb _ _ H1) in Ec. discriminate Ec. }
    destruct H as (Hr' & Hs & Hcase').
    destruct (IH acc' Hr' Hcase') as [E1 E2].
    split; [ exact E1 | now rewrite E2 ].
Qed.

(** A release ends every drag at once: in every state that a run reaches
    and in which the release listener for [mouseup] (or [touchend]) is
    registered, that event takes all listeners of the instance off
    [window] - those of the other kind of drag too - and leaves the
    left-pane size as it is. *)
Theorem release_ends_every_drag (initial : size)
  (trace : list (refs * action)) (dom : refs) (type : string)
  (event : Event) :
  let st := run minSize trace {| leftPaneSize := initial; window := w0 |} in
  In (type, Fn_removeEventListeners) (window st) ->
  step minSize dom (onWindowEvent type event) st
  = {| leftPaneSize := leftPaneSize st; window := w0 |}.
Proof.
  intros st Hin.
  assert (Hr : registered w0 (window st)).
  { apply registered_run; [ exact others | apply registered_initial ]. }
  destruct (release_fold dom type event (window st) st Hr
              (or_intror (conj Hin Hin))) as [E1 E2].
  cbn [step]. unfold dispatch. rewrite <- E1, <- E2.
  match goal with |- ?r = _ => now destruct r end.
Qed.

End Release.

Lemma release_ends_every_drag_witness :
  let dom := {| splitPaneRef := Some (container 0 1000);
                dividerRef := Some (container 500 4) |} in
  let w0 := [("mouseup", Fn_other 5)] in
  let trace := [(dom, onTouchStart); (dom, onMouseDown)] in
  let st := run defaultMinSize trace
              {| leftPaneSize := Text "50%"; window := w0 |} in
  (foreign w0 = true
   /\ List.length (window st) = 5%nat
   /\ In ("mouseup", Fn_removeEventListeners) (window st))
  /\ step defaultMinSize dom (onWindowEvent "mouseup" (MouseEvent (int 1))) st
     = {| leftPaneSize := leftPaneSize st; window := w0 |}.
Proof.
  intros dom w0 trace st.
  assert (Hin : In ("mouseup", Fn_removeEventListeners) (window st))
    by (simpl; auto 10).
  split; [ repeat split; try reflexivity; exact Hin | ].
  exact (release_ends_every_drag defaultMinSize w0 eq_refl (Text "50%") trace
           dom "mouseup" (MouseEvent (int 1)) Hin).
Defined.

(** ** The bounds of the stored percentage *)

Section PercentageBounds.

Local Open Scope Qc_scope.

Lemma convert_within (minSize : size) (l w : Qc) (dom : refs) (x : number) :
  let W := Fin w in
  let m := minPixel minSize W in
  let p := convertPixelToPercentage (splitPaneRef dom) minSize (Num x) in
  geometry l w dom -> 0 < w ->
  le (int 0) m = true -> le m (sub W m) = true -> isNaN x = false ->
  within p (mul (div m W) (int 100)) (mul (div (sub W m) W) (int 100)) = true
  /\ within p (int 0) (int 100) = true.
Proof.
  intros W m p Hg Hw H0 Hroom Hx.
  assert (Hp : p = mul (div (clamp (sub x (Fin l)) m (sub W m)) W) (int 100))
    by now apply convert_clamped.
  destruct (clamp_within (sub x (Fin l)) m (sub W m) Hroom
              (sub_not_NaN x l Hx)) as [Hin _].
  rewrite (code_clamp _ _ _ Hroom) in Hin.
  unfold within in Hin. apply andb_true_iff in Hin. destruct Hin as [H1 H2].
  assert (L1 : le (mul (div m W) (int 100)) p = true)
    by (rewrite Hp; now apply scale_mono).
  assert (L2 : le p (mul (div (sub W m) W) (int 100)) = true)
    by (rewrite Hp; now apply scale_mono).
  split; unfold within; apply andb_true_iff; split; try assumption.
  - rewrite <- (scale_zero w Hw).
    apply (le_trans _ _ _ (scale_mono _ _ w Hw H0) L1).
  - rewrite <- (scale_full w Hw).
    apply (le_trans _ _ _ L2).
    apply scale_mono; [ exact Hw | ].
    now apply upper_bound_below_width.
Qed.

Variable minSize : size.
Variable w0 : list listener.
Hypothesis others : foreign w0 = true.

(** The containers in which the moves take place, and bounds for what the
    conversion returns in them. *)
Variable place : refs -> Prop.
Variables lo hi : number.
Hypothesis place_bounds : forall (dom : refs) (x : number),
  place dom -> isNaN x = false ->
  within (convertPixelToPercentage (splitPaneRef dom) minSize (Num x))
    lo hi = true.

Lemma handleMove_percentage (dom : refs) (x : number) (st : state) :
  place dom -> isNaN x = false ->
  percentage_between lo hi (handleMove dom minSize x st).
Proof.
  intros Hg Hx. eexists. split; [ reflexivity | ].
  now apply place_bounds.
Qed.

Lemma call_percentage (dom : refs) (type : string) (event : Event)
  (lsn : listener) (st : state) :
  place dom -> pointer_ok dom (onWindowEvent type event) = true ->
  fst lsn = type -> In lsn (window st) -> registered w0 (window st) ->
  percentage_between lo hi st ->
  percentage_between lo hi (call dom minSize (snd lsn) event st).
Proof.
  intros Hg Hp Ht Hin Hr Hb.
  destruct (registered_In w0 _ lsn others Hr Hin) as [Ho | Hm].
  - destruct (snd lsn); try discriminate Ho. exact Hb.
  - simpl in Hm. cbn [pointer_ok] in Hp.
    destruct Hm as [<- | [<- | [<- | [<- | []]]]]; simpl in Ht; subst type;
      cbn [snd call]; simpl in Hp; try exact Hb.
    + destruct event as [x | ts]; [ | discriminate Hp ].
      apply negb_true_iff in Hp. now apply handleMove_percentage.
    + destruct event as [x | [ | x ts]]; try exact Hb.
      apply negb_true_iff in Hp. now apply handleMove_percentage.
Qed.

Lemma step_percentage (dom : refs) (a : action) (st : state) :
  place dom -> pointer_ok dom a = true ->
  registered w0 (window st) ->
  percentage_between lo hi st ->
  percentage_between lo hi (step minSize dom a st).
Proof.
  intros Hg Hp Hr Hb.
  destruct a; cbn [step]; try exact Hb.
  - unfold handleKeyDown. cbn [pointer_ok] in Hp.
    destruct (dividerRef dom) as [current | ]; [ | exact Hb ].
    apply negb_true_iff in Hp.
    destruct (add_not_NaN _ 10 Hp) as [Ha Hs].
    repeat match goal with
    | |- context [if ?b then _ else _] => destruct b
    end; try exact Hb; now apply handleMove_percentage.
  - assert (H : registered w0 (window (dispatch dom minSize type event st))
                /\ percentage_between lo hi
                     (dispatch dom minSize type event st)); [ | apply H ].
    apply (dispatch_ind minSize
             (fun s => registered w0 (window s)
                       /\ percentage_between lo hi s));
      [ now split | ].
    intros lsn acc Ht Hin [Hacc Hbacc]. split.
    + now apply registered_call.
    + now apply (call_percentage dom type event lsn acc).
Qed.

Lemma run_percentage_between (trace : list (refs * action)) (st : state) :
  Forall (fun da => place (fst da)
                    /\ pointer_ok (fst da) (snd da) = true) trace ->
  registered w0 (window st) ->
  percentage_between lo hi st ->
  percentage_between lo hi (run minSize trace st).
Proof.
  intros H. revert st. induction H as [ | [dom a] trace [Hg Hp] _ IH];
    intros st Hr Hb; simpl; [ exact Hb | ].
  apply IH; [ now apply registered_step | now apply step_percentage ].
Qed.

End PercentageBounds.

(** C2, as amended: let a move with a coordinate that is a number be
    handled, whatever the size was before, in a container of positive
    width [W] whose minimum in pixels [m] satisfies [0 <= m <= W - m].
    Then the left-pane size is a percentage string whose value lies within
    [[m / W * 100, (W - m) / W * 100]], the bounds as percentages of the
    width, and it stays within them along every further run of actions at
    a container of the same left edge and width.  Along a run whose
    containers have other widths, each leaving room in the same way, it
    stays a percentage string between 0 and 100. *)
Theorem leftPaneSize_percentage_within_bounds (minSize initial : size)
  (l w : Qc) (w0 : list listener) (pre same resized : list (refs * action))
  (dom : refs) (x : number) :
  let W := Fin w in
  let m := minPixel minSize W in
  let st := run minSize pre {| leftPaneSize := initial; window := w0 |} in
  let moved := handleMove dom minSize x st in
  foreign w0 = true ->
  geometry l w dom -> (0 < w)%Qc ->
  le (int 0) m = true -> le m (sub W m) = true -> isNaN x = false ->
  Forall (fun da => geometry l w (fst da)
                    /\ pointer_ok (fst da) (snd da) = true) same ->
  Forall (fun da => roomy minSize (fst da)
                    /\ pointer_ok (fst da) (snd da) = true) resized ->
  percentage_between (mul (div m W) (int 100))
    (mul (div (sub W m) W) (int 100)) moved
  /\ percentage_between (mul (div m W) (int 100))
       (mul (div (sub W m) W) (int 100)) (run minSize same moved)
  /\ percentage_between (int 0) (int 100) (run minSize resized moved).
Proof.
  intros W m st moved Hf Hg Hw H0 Hroom Hx Hsame Hresized.
  destruct (convert_within minSize l w dom x Hg Hw H0 Hroom Hx) as [B1 B2].
  assert (Hr : registered w0 (window moved)).
  { apply (registered_run minSize w0 pre _ Hf), registered_initial. }
  split; [ | split ].
  - eexists. split; [ reflexivity | exact B1 ].
  - apply (run_percentage_between minSize w0 Hf (geometry l w));
      try assumption.
    + intros dom' x' Hg' Hx'.
      now apply (convert_within minSize l w dom' x').
    + eexists. split; [ reflexivity | exact B1 ].
  - apply (run_percentage_between minSize w0 Hf (roomy minSize));
      try assumption.
    + intros dom' x' (l' & w' & Hg' & Hw' & H0' & Hroom') Hx'.
      now apply (convert_within minSize l' w' dom' x').
    + eexists. split; [ reflexivity | exact B2 ].
Qed.

(** A drag to the far left in a container of width 1000 with the default
    minimum of 100 pixels; then either an arrow key and a drag to the far
    right in the same container, or the same drag and key after the
    container has shrunk to 500. *)
Lemma leftPaneSize_percentage_within_bounds_witness :
  let l := Q2Qc (inject_Z 0) in
  let w := Q2Qc (inject_Z 1000) in
  let dom := {| splitPaneRef := Some (container 0 1000);
                dividerRef := Some (container 100 4) |} in
  let small := {| splitPaneRef := Some (container 0 500);
                  dividerRef := Some (container 50 4) |} in
  let pre := [(dom, onMouseDown)] in
  let same := [(dom, onKeyDown "ArrowRight");
               (dom, onWindowEvent "mousemove" (MouseEvent (int 2000)))] in
  let resized := [(small, onWindowEvent "mousemove" (MouseEvent (int 2000)));
                  (small, onKeyDown "ArrowLeft")] in
  let st := run defaultMinSize pre
              {| leftPaneSize := defaultInitialSize; window := [] |} in
  let moved := handleMove dom defaultMinSize (int (-1000)) st in
  (geometry l w dom /\ (0 < w)%Qc /\ roomy defaultMinSize small)
  /\ percentage_between (int 10) (int 90) moved
  /\ percentage_between (int 10) (int 90) (run defaultMinSize same moved)
  /\ percentage_between (int 0) (int 100)
       (run defaultMinSize resized moved).
Proof.
  intros l w dom small pre same resized st moved.
  assert (Hg : geometry l w dom).
  { exists (container 0 1000). split; reflexivity. }
  assert (Hs : roomy defaultMinSize small).
  { exists (Q2Qc (inject_Z 0)), (Q2Qc (inject_Z 500)).
    repeat split. exists (container 0 500). split; reflexivity. }
  split; [ repeat split; assumption | ].
  assert (E10 : mul (div (minPixel defaultMinSize (Fin w)) (Fin w)) (int 100)
                = int 10) by js_compute.
  assert (E90 : mul (div (sub (Fin w) (minPixel defaultMinSize (Fin w)))
                       (Fin w)) (int 100) = int 90) by js_compute.
  rewrite <- E10, <- E90.
  apply (leftPaneSize_percentage_within_bounds defaultMinSize
           defaultInitialSize l w [] pre same resized dom (int (-1000))
           eq_refl Hg eq_refl eq_refl eq_refl eq_refl);
    repeat constructor; assumption.
Defined.

Section BoundsCarveOuts.

(** Before the first move the size is [initialSize], which the validation
    does not compare with [minSize]: 50 pixels pass with the default
    minimum of 100. *)
Lemma leftPaneSize_before_first_move :
  exists st v,
    mount (twoChildren (Some (Num (int 50))) None) [] = Ok (st, v)
    /\ leftPaneSize st = Num (int 50)
    /\ toPixels (leftPaneSize st) (int 1000) = int 50
    /\ minPixel defaultMinSize (int 1000) = int 100
    /\ ~ in_bounds defaultMinSize (int 1000) st.
Proof.
  do 2 eexists. split; [ reflexivity | ]. cbn [leftPaneSize].
  do 3 (split; [ js_compute | ]).
  unfold in_bounds. intros H. vm_compute in H. discriminate H.
Qed.

(** The stored percentage is not clamped again when the container changes
    its width: a drag to the far left at the width 1000 stores 10%, which
    is the minimum of 100 pixels there and 50 pixels once the container is
    500 wide. *)
Lemma leftPaneSize_after_resize :
  let dom := {| splitPaneRef := Some (container 0 1000);
                dividerRef := Some (container 500 4) |} in
  let st := run defaultMinSize
              [(dom, onMouseDown);
               (dom, onWindowEvent "mousemove" (MouseEvent (int (-1000))));
               (dom, onWindowEvent "mouseup" (MouseEvent (int (-1000))))]
              {| leftPaneSize := Text "50%"; window := [] |} in
  leftPaneSize st = Pct (int 10)
  /\ in_bounds defaultMinSize (int 1000) st
  /\ toPixels (leftPaneSize st) (int 500) = int 50
  /\ ~ in_bounds defaultMinSize (int 500) st.
Proof.
  cbv zeta. split; [ js_compute | ]. split; [ reflexivity | ].
  split; [ js_compute | ].
  unfold in_bounds. intros H. vm_compute in H. discriminate H.
Qed.

End BoundsCarveOuts.

(** ** What rounding does *)

Section Rounding.

Import Floats.
Local Open Scope float_scope.

(** In binary64 the percentage that a move stores need not give the pixels
    back: in a container of width 210 with a minimum of 100 pixels, which
    leaves room, a drag to the far left stores 100 / 210 * 100, and that
    percentage of 210 is below 100. *)
Lemma double_far_left_drag :
  let p := Double.convertPixelToPercentage 0 210 100 (-1000) in
  (100 <=? 210 - 100) = true
  /\ (p =? 100 / 210 * 100) = true
  /\ (Double.pixels p 210 <? 100) = true.
Proof. vm_compute. repeat split. Qed.

(** In binary64 the arrow keys do not restore 57% in a container of width
    1000 with a minimum of 100 pixels: 57% are 570 pixels, ArrowRight
    converts 580 to less than 58, and ArrowLeft converts 570 to less than
    57. *)
Lemma double_arrow_keys :
  (Double.pixels 57 1000 =? 570) = true
  /\ (Double.convertPixelToPercentage 0 1000 100 (570 + 10) <? 58) = true
  /\ (580 - 10 =? 570) = true
  /\ (Double.convertPixelToPercentage 0 1000 100 (580 - 10) <? 57) = true.
Proof. vm_compute. repeat split. Qed.

End Rounding.
